(** * Marketing Metrics CLI (main.go)

    A shallow embedding of the metrics engine ([safe], [round2],
    [computeMetrics]), the aggregator ([totalMetrics]), the loader
    ([parseFloat], [loadCSV]) and the filter / sort / report pipeline of
    [main], followed by the properties proved about them.

    Go's [float64] is IEEE 754 binary64; it is modelled by Rocq's primitive
    [float], whose [+], [*], [/], [<?], [<=?] and [=?] are the same binary64
    operations (round to nearest, ties to even).  Go strings are byte
    strings; they are modelled by [string], one [ascii] per byte. *)

From Stdlib Require Import ZArith Lia List String Ascii Bool.
From Stdlib Require Import Permutation Sorted.
From Stdlib Require Import Floats Uint63.
From Stdlib Require QArith Qround Qabs.
Import ListNotations.

Set Warnings "-inexact-float".

(** Go writes [a > b] and [a >= b]; on floats they are [b < a] and [b <= a]
    (all four are false as soon as one side is NaN). *)
Notation "a >? b" := (PrimFloat.ltb b a) (at level 70, no associativity) : float_scope.
Notation "a >=? b" := (PrimFloat.leb b a) (at level 70, no associativity) : float_scope.

(* ================================================================== *)
(** ** Library functions the program calls *)

(** *** package math *)
Module math.

(** [nearestAway m e] is the integer nearest to [m * 2^e] for [e < 0], a
    tie going to the larger one (the value is non-negative here). *)
Definition nearestAway (m : positive) (e : Z) : Z :=
  let k := (- e)%Z in
  let q := Z.shiftr (Zpos m) k in
  let r := Z.land (Zpos m) (Z.ones k) in
  if (Z.shiftl 1 (k - 1) <=? r)%Z then (q + 1)%Z else q.

(** [math.Round]: the nearest integer, rounding half away from zero;
    [Round(±0) = ±0], [Round(±Inf) = ±Inf], [Round(NaN) = NaN].  A finite
    non-zero [x] is [±m * 2^e] with [m < 2^53]; when [0 <= e] it is an
    integer already, otherwise the rounded magnitude is at most [2^53] and
    converts to a float exactly.  The sign of [x] is kept, so that values
    in (-0.5, 0) round to [-0] as they do in Go. *)
Definition Round (x : float) : float :=
  match Prim2SF x with
  | S754_finite s m e =>
      if (0 <=? e)%Z then x
      else
        let r := of_uint63 (Uint63.of_Z (nearestAway m e)) in
        if s then (- r)%float else r
  | _ => x
  end.

End math.

(** *** package strings *)
Module strings.
Local Open Scope char_scope.
Local Open Scope string_scope.

Definition isUpper (c : ascii) : bool :=
  (65 <=? nat_of_ascii c)%nat && (nat_of_ascii c <=? 90)%nat.

Definition lowerByte (c : ascii) : ascii :=
  if isUpper c then ascii_of_nat (nat_of_ascii c + 32) else c.

(** [strings.ToLower].  ASCII letters are lowered byte by byte.  Of the
    runes outside ASCII only U+0130 (bytes C4 B0) and U+212A (bytes E2 84
    AA) have an ASCII lower case, [i] and [k]; they are mapped as Go maps
    them.  Every other byte is copied: Go may rewrite such a rune to
    another rune outside ASCII (a capital E with an accent to the small
    one), which no comparison of the program with its ASCII column names
    and sort keys can tell apart from the copy.  Only the text of the
    heading line, which prints the lowered sort key, differs from Go's
    for such a key. *)
Fixpoint ToLower (s : string) : string :=
  match s with
  | String "196" (String "176" r) => String "i" (ToLower r)
  | String "226" (String "132" (String "170" r)) => String "k" (ToLower r)
  | String c r => String (lowerByte c) (ToLower r)
  | EmptyString => EmptyString
  end.

(** The white space of [unicode.IsSpace] that is one byte long. *)
Definition isSpaceByte (c : ascii) : bool :=
  let n := nat_of_ascii c in
  ((9 <=? n)%nat && (n <=? 13)%nat) || (n =? 32)%nat.

(** The last byte of U+2000..U+200A, U+2028, U+2029 and U+202F, whose
    first two bytes are E2 80. *)
Definition isE280Space (c : ascii) : bool :=
  let n := nat_of_ascii c in
  ((128 <=? n)%nat && (n <=? 138)%nat) || (n =? 168)%nat || (n =? 169)%nat
  || (n =? 175)%nat.

(** The last byte of U+0085 and U+00A0, whose first byte is C2. *)
Definition isC2Space (c : ascii) : bool :=
  let n := nat_of_ascii c in (n =? 133)%nat || (n =? 160)%nat.

(** Leading white space removed: the one-byte spaces and the UTF-8 forms
    of U+0085, U+00A0, U+1680, U+2000..U+200A, U+2028, U+2029, U+202F,
    U+205F and U+3000. *)
Fixpoint trimLeft (s : string) : string :=
  match s with
  | String "194" (String c r) => if isC2Space c then trimLeft r else s
  | String "225" (String "154" (String "128" r)) => trimLeft r
  | String "226" (String "128" (String c r)) =>
      if isE280Space c then trimLeft r else s
  | String "226" (String "129" (String "159" r)) => trimLeft r
  | String "227" (String "128" (String "128" r)) => trimLeft r
  | String c r => if isSpaceByte c then trimLeft r else s
  | EmptyString => EmptyString
  end.

(** The same from the end, on the reversed string: [c] is the last byte,
    [r] the bytes before it, nearest first. *)
Fixpoint trimLeftRev (s : list ascii) : list ascii :=
  match s with
  | c :: r =>
      if isSpaceByte c then trimLeftRev r
      else
        match r with
        | "194"%char :: r' => if isC2Space c then trimLeftRev r' else s
        | "154"%char :: "225"%char :: r' =>
            if Ascii.eqb c "128" then trimLeftRev r' else s
        | "128"%char :: "226"%char :: r' =>
            if isE280Space c then trimLeftRev r' else s
        | "129"%char :: "226"%char :: r' =>
            if Ascii.eqb c "159" then trimLeftRev r' else s
        | "128"%char :: "227"%char :: r' =>
            if Ascii.eqb c "128" then trimLeftRev r' else s
        | _ => s
        end
  | [] => []
  end%list.

Definition trimRight (s : string) : string :=
  string_of_list_ascii (rev (trimLeftRev (rev (list_ascii_of_string s)))).

(** [strings.TrimSpace]. *)
Definition TrimSpace (s : string) : string := trimRight (trimLeft s).

(** [strings.ReplaceAll(s, ",", "")]: every comma byte is dropped. *)
Fixpoint removeCommas (s : string) : string :=
  match s with
  | String c r => if Ascii.eqb c "," then removeCommas r else String c (removeCommas r)
  | EmptyString => EmptyString
  end.

End strings.

(** *** package strconv *)
Module strconv.
Local Open Scope char_scope.

Definition digit (c : ascii) : option Z :=
  let n := nat_of_ascii c in
  if ((48 <=? n) && (n <=? 57))%nat then Some (Z.of_nat (n - 48)) else None.

(** Reads [digits [ "." digits ]]: the digits as one integer, how many of
    them follow the point, and how many there are. *)
Fixpoint readDigits (s : string) (seenDot : bool) (acc : Z) (frac total : nat)
  : option (Z * nat * nat) :=
  match s with
  | EmptyString => Some (acc, frac, total)
  | String c r =>
      if Ascii.eqb c "." then
        if seenDot then None else readDigits r true acc frac total
      else
        match digit c with
        | Some d =>
            readDigits r seenDot (10 * acc + d)%Z
                       (if seenDot then S frac else frac) (S total)
        | None => None
        end
  end.

Definition magnitude (s : string) : option float :=
  match readDigits s false 0%Z 0 0 with
  | Some (n, frac, total) =>
      if ((1 <=? total) && (total <=? 15) )%nat then
        Some (of_uint63 (Uint63.of_Z n) / of_uint63 (Uint63.of_Z (10 ^ Z.of_nat frac)))%float
      else None
  | None => None
  end.

(** A fragment of [strconv.ParseFloat(s, 64)]: an optional sign, decimal
    digits and at most one point, with one to fifteen digits in all.  The
    digits then form an integer below [2^53] and the power of ten is at
    most [10^15], both exact floats, so that their correctly rounded
    quotient is the float nearest to the decimal, which is what ParseFloat
    returns.  Whenever the result is [Some v], Go's ParseFloat returns [v]
    and no error; [None] says nothing: the text is outside the fragment
    (exponents, hexadecimal, [inf], [nan], longer numerals are accepted by
    Go, other texts are errors). *)
Definition ParseDecimal (s : string) : option float :=
  match s with
  | String "-" r => option_map PrimFloat.opp (magnitude r)
  | String "+" r => magnitude r
  | _ => magnitude s
  end.

End strconv.

(** *** package sort *)
Module sort.
Section Contract.
Context {A : Type}.

(** What [sort.Interface] asks of [Less]: it reports whether one element
    must sort before another and describes a transitive ordering, on the
    elements being sorted: "if both Less(i, j) and Less(j, k) are true,
    then Less(i, k) must be true as well; if both Less(i, j) and
    Less(j, k) are false, then Less(i, k) must be false as well". *)
Record Ordering (less : A -> A -> bool) (l : list A) : Prop := {
  less_irrefl : forall x, In x l -> less x x = false;
  less_trans : forall x y z, In x l -> In y l -> In z l ->
    less x y = true -> less y z = true -> less x z = true;
  less_incomparable_trans : forall x y z, In x l -> In y l -> In z l ->
    less x y = false -> less y z = false -> less x z = false
}.

(** A sorted slice: no element must sort before one at a smaller index. *)
Definition IsSorted (less : A -> A -> bool) (l : list A) : Prop :=
  StronglySorted (fun a b => less b a = false) l.

(** Two elements tie when neither must sort before the other. *)
Definition tie (less : A -> A -> bool) (y z : A) : bool :=
  negb (less y z) && negb (less z y).

(** What [sort.Slice(x, less)] promises: [x] is rearranged into sorted
    order.  "The sort is not guaranteed to be stable": nothing is said
    about the order of elements neither of which is less than the other. *)
Definition Sorts (srt : list A -> (A -> A -> bool) -> list A) : Prop :=
  forall l less, Ordering less l ->
    Permutation l (srt l less) /\ IsSorted less (srt l less).

(** [insertionSort_func], which sort.Slice runs on slices of at most
    twelve elements since Go 1.19: element [i] is swapped leftwards
    while it is less than its left neighbour.  [revPrefix] is
    [data[a:i]] reversed, so its head is the left neighbour. *)
Fixpoint sink (less : A -> A -> bool) (x : A) (revPrefix : list A) : list A :=
  match revPrefix with
  | p :: ps => if less x p then p :: sink less x ps else x :: p :: ps
  | [] => [x]
  end.

Definition insertionSort_func (l : list A) (less : A -> A -> bool) : list A :=
  rev (fold_left (fun revPrefix x => sink less x revPrefix) l []).

(** [rp], a prefix of the slice read from right to left, is in sorted
    order when no element is less than one that follows it in [rp]. *)
Definition RevSorted (less : A -> A -> bool) (rp : list A) : Prop :=
  StronglySorted (fun later earlier => less later earlier = false) rp.

(** Another function that meets the promise of [sort.Slice]; it leaves
    equal elements in the opposite order. *)
Definition reversingSort (l : list A) (less : A -> A -> bool) : list A :=
  insertionSort_func (rev l) less.
End Contract.

(** How Go 1.19 and later sort ([pdqsort_func], pattern-defeating
    quicksort), for the runs that neither reach [heapSort_func],
    [breakPatterns_func] or [partitionEqual_func] nor sort a range of
    fifty elements or more: those runs give [None] here.  The slice is a
    list, an index a position in it; [less] is applied to the elements at
    two positions. *)
Section Pdqsort.
Context {A : Type}.
Variable less : A -> A -> bool.

(** [data.Less(i, j)] *)
Definition lessAt (data : list A) (i j : nat) : bool :=
  match nth_error data i, nth_error data j with
  | Some x, Some y => less x y
  | _, _ => false
  end.

Fixpoint store (data : list A) (i : nat) (x : A) : list A :=
  match data, i with
  | [], _ => []
  | _ :: r, O => x :: r
  | y :: r, S i' => y :: store r i' x
  end.

(** [data.Swap(i, j)] *)
Definition swapAt (data : list A) (i j : nat) : list A :=
  match nth_error data i, nth_error data j with
  | Some x, Some y => store (store data i y) j x
  | _, _ => data
  end.

(** [insertionSort_func(data, a, b)]: [data[a:b]] is sorted by insertion. *)
Definition insertionSortRange (data : list A) (a b : nat) : list A :=
  firstn a data ++ insertionSort_func (firstn (b - a) (skipn a data)) less ++ skipn b data.

(** [order2_func]: the two indices in order, and the count of swaps. *)
Definition order2_func (data : list A) (a b swaps : nat) : nat * nat * nat :=
  if lessAt data b a then (b, a, S swaps) else (a, b, swaps).

Definition median_func (data : list A) (a b c swaps : nat) : nat * nat :=
  let '(a, b, swaps) := order2_func data a b swaps in
  let '(b, c, swaps) := order2_func data b c swaps in
  let '(a, b, swaps) := order2_func data a b swaps in
  (b, swaps).

(** [choosePivot_func] for fewer than fifty elements: the pivot and the
    number of swaps; the hint is "increasing" when there was no swap (it
    is never "decreasing" here, which takes twelve swaps). *)
Definition choosePivot_func (data : list A) (a b : nat) : nat * nat :=
  let l := b - a in
  let i := a + l / 4 * 1 in
  let j := a + l / 4 * 2 in
  let k := a + l / 4 * 3 in
  if 8 <=? l then median_func data i j k 0 else (j, 0).

(** The first loop of [partialInsertionSort_func]:
    [for i < b && !less(data[i], data[i-1]) { i++ }].  On fewer than fifty
    elements the function returns [i == b] after it. *)
Fixpoint skipOrdered (fuel : nat) (data : list A) (i b : nat) : nat :=
  match fuel with
  | O => i
  | S f =>
      if (i <? b) && negb (lessAt data i (i - 1)) then skipOrdered f data (S i) b else i
  end.

(** [for i <= j && less(data[i], data[a]) { i++ }] *)
Fixpoint scanUp (fuel : nat) (data : list A) (a i j : nat) : nat :=
  match fuel with
  | O => i
  | S f => if (i <=? j) && lessAt data i a then scanUp f data a (S i) j else i
  end.

(** [for i <= j && !less(data[j], data[a]) { j-- }] *)
Fixpoint scanDown (fuel : nat) (data : list A) (a i j : nat) : nat :=
  match fuel with
  | O => j
  | S f => if (i <=? j) && negb (lessAt data j a) then scanDown f data a i (j - 1) else j
  end.

(** The [for] loop that ends [partition_func]. *)
Fixpoint partitionLoop (fuel : nat) (data : list A) (a i j : nat) : list A * nat :=
  match fuel with
  | O => (data, j)
  | S f =>
      let i := scanUp (S (List.length data)) data a i j in
      let j := scanDown (S (List.length data)) data a i j in
      if j <? i then (data, j)
      else partitionLoop f (swapAt data i j) a (S i) (j - 1)
  end.

(** [partition_func]: the slice, the new index of the pivot, and whether
    the range was partitioned already. *)
Definition partition_func (data : list A) (a b pivot : nat) : list A * nat * bool :=
  let data := swapAt data a pivot in
  let i := scanUp (S (List.length data)) data a (a + 1) (b - 1) in
  let j := scanDown (S (List.length data)) data a i (b - 1) in
  if j <? i then (swapAt data j a, j, true)
  else
    let '(data, j) := partitionLoop (S (List.length data)) (swapAt data i j) a (S i) (j - 1) in
    (swapAt data j a, j, false).

Fixpoint pdqsort_func (fuel : nat) (data : list A) (a b limit : nat)
         (wasBalanced wasPartitioned : bool) : option (list A) :=
  match fuel with
  | O => None
  | S f =>
      let length := b - a in
      if length <=? 12 then Some (insertionSortRange data a b)
      else if (limit =? 0) || negb wasBalanced || (50 <=? length) then None
      else
        let '(pivot, swaps) := choosePivot_func data a b in
        if wasPartitioned && (swaps =? 0) && (skipOrdered length data (a + 1) b =? b)
        then Some data
        else if (0 <? a) && negb (lessAt data (a - 1) pivot) then None
        else
          let '(data, mid, already) := partition_func data a b pivot in
          let leftLen := mid - a in
          let rightLen := b - mid in
          let balanceThreshold := length / 8 in
          if leftLen <? rightLen then
            match pdqsort_func f data a mid limit true true with
            | Some data =>
                pdqsort_func f data (mid + 1) b limit (balanceThreshold <=? leftLen) already
            | None => None
            end
          else
            match pdqsort_func f data (mid + 1) b limit true true with
            | Some data =>
                pdqsort_func f data a mid limit (balanceThreshold <=? rightLen) already
            | None => None
            end
  end.

(** [sort.Slice(x, less)]: [limit] is [bits.Len(uint(length))]. *)
Definition Slice (x : list A) : option (list A) :=
  let length := List.length x in
  let limit := if length =? 0 then 0 else Nat.log2 length + 1 in
  pdqsort_func (S length) x 0 length limit true true.
End Pdqsort.
End sort.

(* ================================================================== *)
(** ** Types *)

(** [Campaign] holds raw data parsed from one CSV row. *)
Module Campaign.
Record t : Set := mk {
  Name : string;
  Impressions : float;
  Clicks : float;
  Conversions : float;
  Spend : float;
  Revenue : float
}.
End Campaign.
Abbreviation Campaign := Campaign.t.

(** [Metrics] holds computed KPIs for one campaign. *)
Module Metrics.
Record t : Set := mk {
  Name : string;
  CTR : float;
  CVR : float;
  CPC : float;
  CPA : float;
  ROAS : float;
  RevPerConv : float;
  Spend : float;
  Revenue : float;
  Impressions : float;
  Clicks : float;
  Conversions : float
}.
End Metrics.
Abbreviation Metrics := Metrics.t.

(* ================================================================== *)
(** ** Helpers *)

Definition safe (a b : float) : float :=
  if (b =? 0)%float then 0%float else (a / b)%float.

Definition round2 (v : float) : float :=
  (math.Round (v * 100) / 100)%float.

Definition computeMetrics (c : Campaign) : Metrics :=
  {| Metrics.Name := Campaign.Name c;
     Metrics.CTR := round2 (safe (Campaign.Clicks c) (Campaign.Impressions c) * 100);
     Metrics.CVR := round2 (safe (Campaign.Conversions c) (Campaign.Clicks c) * 100);
     Metrics.CPC := round2 (safe (Campaign.Spend c) (Campaign.Clicks c));
     Metrics.CPA := round2 (safe (Campaign.Spend c) (Campaign.Conversions c));
     Metrics.ROAS := round2 (safe (Campaign.Revenue c) (Campaign.Spend c));
     Metrics.RevPerConv := round2 (safe (Campaign.Revenue c) (Campaign.Conversions c));
     Metrics.Spend := Campaign.Spend c;
     Metrics.Revenue := Campaign.Revenue c;
     Metrics.Impressions := Campaign.Impressions c;
     Metrics.Clicks := Campaign.Clicks c;
     Metrics.Conversions := Campaign.Conversions c |}.

(* ================================================================== *)
(** ** CSV parsing *)

Local Open Scope string_scope.

Definition requiredCols : list string :=
  ["campaign_name"; "impressions"; "clicks"; "conversions"; "spend"; "revenue"].

(** The errors [loadCSV] returns, one constructor per [fmt.Errorf]; a
    wrapped error is kept by its text, that of ParseFloat by the text it
    could not parse. *)
Inductive loadError : Set :=
| CannotOpenFile (cause : string)
| CSVParseError (cause : string)
| NoDataRow
| MissingRequiredColumn (col : string)
| BadField (row : nat) (col : string) (text : string).

(** A call either returns a value, returns an error, or panics (an index
    out of range). *)
Inductive result (A : Type) : Type :=
| Ok (a : A)
| Err (e : loadError)
| Panic.
Arguments Ok {A} a.
Arguments Err {A} e.
Arguments Panic {A}.

Definition bind {A B : Type} (r : result A) (k : A -> result B) : result B :=
  match r with
  | Ok a => k a
  | Err e => Err e
  | Panic => Panic
  end.

Notation "x <- r ;; k" := (bind r (fun x => k))
  (at level 61, r at next level, right associativity).

(** What [os.Open(path)] and [csv.Reader.ReadAll] give for a path: the
    file cannot be opened, its text is not CSV, or it is read as records.
    (The reader skips empty lines and refuses a record whose number of
    fields differs from the first record's.) *)
Inductive fileContents : Set :=
| OpenFails (cause : string)
| ReadAllFails (cause : string)
| Records (rows : list (list string)).

(** The [header] map, from column name to index; a missing key reads as
    [0], the zero value. *)
Definition columnIndex : Type := string -> option nat.

Definition noColumns : columnIndex := fun _ => None.

Definition setColumn (header : columnIndex) (name : string) (i : nat) : columnIndex :=
  fun k => if String.eqb k name then Some i else header k.

Definition indexOf (header : columnIndex) (col : string) : nat :=
  match header col with
  | Some i => i
  | None => 0
  end.

(** [for i, h := range rows[0] { header[ToLower(TrimSpace(h))] = i }] *)
Fixpoint buildHeader (header : columnIndex) (i : nat) (row : list string) : columnIndex :=
  match row with
  | [] => header
  | h :: hs => buildHeader (setColumn header (strings.ToLower (strings.TrimSpace h)) i) (S i) hs
  end.

(** [for _, col := range requiredCols { if _, ok := header[col]; !ok {...} }] *)
Fixpoint checkRequired (header : columnIndex) (cols : list string) : result unit :=
  match cols with
  | [] => Ok tt
  | col :: rest =>
      match header col with
      | Some _ => checkRequired header rest
      | None => Err (MissingRequiredColumn col)
      end
  end.

Section Loader.
(** [strconv.ParseFloat(s, 64)]: the value, or [None] for an error. *)
Variable ParseFloat : string -> option float.

(** [s = strings.TrimSpace(strings.ReplaceAll(s, ",", ""))], the first
    line of [parseFloat]. *)
Definition cleaned (s : string) : string :=
  strings.TrimSpace (strings.removeCommas s).

Definition parseFloat (s : string) : option float :=
  ParseFloat (cleaned s).

(** [row[k]] *)
Definition field (row : list string) (k : nat) : result string :=
  match nth_error row k with
  | Some s => Ok s
  | None => Panic
  end.

(** The closure [parse] of the row loop; [i] is the index in [rows[1:]].
    The error wraps that of ParseFloat, which quotes the text it was
    given. *)
Definition parse (header : columnIndex) (i : nat) (row : list string) (col : string)
  : result float :=
  s <- field row (indexOf header col) ;;
  match parseFloat s with
  | Some v => Ok v
  | None => Err (BadField (i + 2) col (cleaned s))
  end.

(** The body of the loop over [rows[1:]] for one non-empty row. *)
Definition loadRow (header : columnIndex) (i : nat) (row : list string) : result Campaign :=
  imp <- parse header i row "impressions" ;;
  clk <- parse header i row "clicks" ;;
  conv <- parse header i row "conversions" ;;
  spend <- parse header i row "spend" ;;
  rev <- parse header i row "revenue" ;;
  name <- field row (indexOf header "campaign_name") ;;
  Ok {| Campaign.Name := strings.TrimSpace name;
        Campaign.Impressions := imp;
        Campaign.Clicks := clk;
        Campaign.Conversions := conv;
        Campaign.Spend := spend;
        Campaign.Revenue := rev |}.

(** The loop over [rows[1:]]: an empty row is skipped, the first error
    ends the loop, a good row is appended to [campaigns]. *)
Fixpoint loadRows (header : columnIndex) (i : nat) (rows : list (list string))
         (campaigns : list Campaign) : result (list Campaign) :=
  match rows with
  | [] => Ok campaigns
  | row :: rest =>
      if (List.length row =? 0)%nat then loadRows header (S i) rest campaigns
      else
        c <- loadRow header i row ;;
        loadRows header (S i) rest (campaigns ++ [c])
  end.

Definition loadCSV (file : fileContents) : result (list Campaign) :=
  match file with
  | OpenFails cause => Err (CannotOpenFile cause)
  | ReadAllFails cause => Err (CSVParseError cause)
  | Records rows =>
      match rows with
      | first :: ((_ :: _) as data) =>
          let header := buildHeader noColumns 0 first in
          _ <- checkRequired header requiredCols ;;
          loadRows header 0 data []
      | _ => Err NoDataRow
      end
  end.
End Loader.

(* ================================================================== *)
(** ** Aggregates *)

(** One turn of the loop of [totalMetrics]: the five measures of [m] are
    added to those of [t]. *)
Definition addMeasures (t : Campaign) (m : Metrics) : Campaign :=
  {| Campaign.Name := Campaign.Name t;
     Campaign.Impressions := (Campaign.Impressions t + Metrics.Impressions m)%float;
     Campaign.Clicks := (Campaign.Clicks t + Metrics.Clicks m)%float;
     Campaign.Conversions := (Campaign.Conversions t + Metrics.Conversions m)%float;
     Campaign.Spend := (Campaign.Spend t + Metrics.Spend m)%float;
     Campaign.Revenue := (Campaign.Revenue t + Metrics.Revenue m)%float |}.

Definition totalMetrics (all : list Metrics) : Metrics :=
  let t := {| Campaign.Name := "TOTAL";
              Campaign.Impressions := 0; Campaign.Clicks := 0;
              Campaign.Conversions := 0; Campaign.Spend := 0;
              Campaign.Revenue := 0 |} in
  computeMetrics (fold_left addMeasures all t).

(* ================================================================== *)
(** ** Display *)

(** The colour codes: ESC, the byte 27 that Go writes [\033], then the
    code. *)
Definition reset : string := String "027" "[0m".
Definition bold : string := String "027" "[1m".
Definition red : string := String "027" "[31m".
Definition green : string := String "027" "[32m".
Definition yellow : string := String "027" "[33m".
Definition cyan : string := String "027" "[36m".
Definition gray : string := String "027" "[90m".

Section Display.
(** [fmt.Sprintf("%.2fx", v)] *)
Variable Sprintf_2fx : float -> string.

Definition colorROAS (v : float) : string :=
  let s := Sprintf_2fx v in
  if (v >=? 4)%float then ((green ++ bold) ++ s) ++ reset
  else if (v >=? 2)%float then (yellow ++ s) ++ reset
  else (red ++ s) ++ reset.
End Display.

(* ================================================================== *)
(** ** Main *)

(** The command line: [--file], [--sort] and [--min-roas]. *)
Record Flags : Set := {
  filePath : string;
  sortBy : string;
  minROAS : float
}.

(** The flags' default values. *)
Definition defaultFlags : Flags :=
  {| filePath := ""; sortBy := "roas"; minROAS := 0 |}.

(** What the program writes, one constructor per print statement (or per
    display function); the first five go to standard error, the others to
    standard output.  Each carries the values that are printed;
    [RuntimePanic] is the trace the Go runtime prints for a panic. *)
Inductive event : Set :=
| ErrFileRequired
| ErrUsage
| ErrLoad (e : loadError)
| WarnNoRows
| RuntimePanic
| Heading (path : string) (campaigns : nat) (sortedBy : string)
| Table (rows : list Metrics)
| Summary (total : Metrics)
| BestROAS (name : string) (roas : float)
| LowestCPA (name : string) (cpa : float).

(** A run: what was written, and the exit status ([os.Exit], a return
    from [main], or 2 after a panic). *)
Record Run : Set := {
  output : list event;
  exitCode : Z
}.

(** One turn of the loop that computes the metrics and filters them. *)
Definition keepIfROAS (minROAS : float) (all : list Metrics) (c : Campaign) : list Metrics :=
  let m := computeMetrics c in
  if (Metrics.ROAS m >=? minROAS)%float then all ++ [m] else all.

Definition computeAll (minROAS : float) (campaigns : list Campaign) : list Metrics :=
  fold_left (keepIfROAS minROAS) campaigns [].

(** The [less] function given to [sort.Slice], on the elements [all[i]]
    and [all[j]] it compares. *)
Definition less (sortBy : string) (x y : Metrics) : bool :=
  let key := strings.ToLower sortBy in
  if key =? "ctr" then (Metrics.CTR x >? Metrics.CTR y)%float
  else if key =? "cvr" then (Metrics.CVR x >? Metrics.CVR y)%float
  else if key =? "cpa" then (Metrics.CPA x <? Metrics.CPA y)%float
  else if key =? "spend" then (Metrics.Spend x >? Metrics.Spend y)%float
  else if key =? "revenue" then (Metrics.Revenue x >? Metrics.Revenue y)%float
  else (Metrics.ROAS x >? Metrics.ROAS y)%float.

(** The scan behind "Lowest CPA": [best] starts as [all[0]] and is
    replaced by each later record that has conversions and a lower CPA. *)
Definition lowerCPA (best m : Metrics) : Metrics :=
  if (Metrics.Conversions m >? 0)%float && (Metrics.CPA m <? Metrics.CPA best)%float
  then m else best.

Definition lowestCPA (first : Metrics) (rest : list Metrics) : Metrics :=
  fold_left lowerCPA rest first.

(** The block [if len(all) > 1 { ... }]. *)
Definition bestWorst (all : list Metrics) : list event :=
  match all with
  | first :: ((_ :: _) as rest) =>
      let best := lowestCPA first rest in
      [BestROAS (Metrics.Name first) (Metrics.ROAS first);
       LowestCPA (Metrics.Name best) (Metrics.CPA best)]
  | _ => []
  end.

Section Main.
Variable ParseFloat : string -> option float.
Variable sort_Slice : list Metrics -> (Metrics -> Metrics -> bool) -> list Metrics.
(** The file system: what opening and reading a path gives. *)
Variable fsys : string -> fileContents.

(** Filter, then sort. *)
Definition pipeline (fl : Flags) (campaigns : list Campaign) : list Metrics :=
  sort_Slice (computeAll (minROAS fl) campaigns) (less (sortBy fl)).

Definition report (fl : Flags) (all : list Metrics) : list event :=
  [Heading (filePath fl) (List.length all) (strings.ToLower (sortBy fl));
   Table all;
   Summary (totalMetrics all)] ++ bestWorst all.

Definition main (fl : Flags) : Run :=
  if filePath fl =? "" then
    {| output := [ErrFileRequired; ErrUsage]; exitCode := 1 |}
  else
    match loadCSV ParseFloat (fsys (filePath fl)) with
    | Err e => {| output := [ErrLoad e]; exitCode := 1 |}
    | Panic => {| output := [RuntimePanic]; exitCode := 2 |}
    | Ok campaigns =>
        if (List.length campaigns =? 0)%nat then
          {| output := [WarnNoRows]; exitCode := 0 |}
        else
          {| output := report fl (pipeline fl campaigns); exitCode := 0 |}
    end.
End Main.

(* ================================================================== *)
(** ** Vocabulary of the properties *)

(** A float that is [>= 0] and not [+Inf]; NaN fails the first test. *)
Definition nonNegFinite (x : float) : bool :=
  (x >=? 0)%float && (x <? infinity)%float.

(** The invariant of a raw record: its five measures are finite and
    non-negative. *)
Definition validCampaign (c : Campaign) : bool :=
  nonNegFinite (Campaign.Impressions c) && nonNegFinite (Campaign.Clicks c)
  && nonNegFinite (Campaign.Conversions c) && nonNegFinite (Campaign.Spend c)
  && nonNegFinite (Campaign.Revenue c).

(** The fields a sort key can select are [>= 0] (in particular not NaN). *)
Definition comparable (m : Metrics) : Prop :=
  (Metrics.CTR m >=? 0)%float = true /\ (Metrics.CVR m >=? 0)%float = true /\
  (Metrics.CPA m >=? 0)%float = true /\ (Metrics.ROAS m >=? 0)%float = true /\
  (Metrics.Spend m >=? 0)%float = true /\ (Metrics.Revenue m >=? 0)%float = true.

(** The arithmetic sum of one measure over a collection, taken in the
    order of the collection. *)
Definition sumOf (measure : Metrics -> float) (all : list Metrics) : float :=
  fold_left (fun acc m => (acc + measure m)%float) all 0%float.

(** The unweighted average of a list of ratios. *)
Definition average (ratios : list float) : float :=
  (fold_left PrimFloat.add ratios 0 / of_uint63 (Uint63.of_Z (Z.of_nat (List.length ratios))))%float.

(** The sort keys of the specification and the key a [--sort] text
    selects: the text is compared without regard to case, and any text
    that is none of the six names selects [roas]. *)
Inductive SortKey : Set := ByROAS | ByCTR | ByCVR | ByCPA | BySpend | ByRevenue.

Definition keyOf (sortBy : string) : SortKey :=
  let key := strings.ToLower sortBy in
  if key =? "roas" then ByROAS
  else if key =? "ctr" then ByCTR
  else if key =? "cvr" then ByCVR
  else if key =? "cpa" then ByCPA
  else if key =? "spend" then BySpend
  else if key =? "revenue" then ByRevenue
  else ByROAS.

(** The field a key reads. *)
Definition keyField (k : SortKey) : Metrics -> float :=
  match k with
  | ByROAS => Metrics.ROAS
  | ByCTR => Metrics.CTR
  | ByCVR => Metrics.CVR
  | ByCPA => Metrics.CPA
  | BySpend => Metrics.Spend
  | ByRevenue => Metrics.Revenue
  end.

(** [cpa] sorts ascending, the other keys descending: [precedes k x y]
    says that [x] must come before [y], [inOrder k x y] that [x] may. *)
Definition precedes (k : SortKey) (x y : Metrics) : bool :=
  match k with
  | ByCPA => (keyField k x <? keyField k y)%float
  | _ => (keyField k x >? keyField k y)%float
  end.

Definition inOrder (k : SortKey) (x y : Metrics) : Prop :=
  match k with
  | ByCPA => (keyField k x <=? keyField k y)%float = true
  | _ => (keyField k x >=? keyField k y)%float = true
  end.

(** Two records tie when neither must come before the other. *)
Definition tied (sortBy : string) (x y : Metrics) : bool :=
  sort.tie (less sortBy) x y.

(** [sorted] is a stable rearrangement of [all]: the records that tie
    with a given record are in the same order in both. *)
Definition Stable (sortBy : string) (all sorted : list Metrics) : Prop :=
  forall x, In x all ->
    filter (tied sortBy x) sorted = filter (tied sortBy x) all.

(** The two selections of the report. *)
Definition isSelection (e : event) : bool :=
  match e with
  | BestROAS _ _ | LowestCPA _ _ => true
  | _ => false
  end.

Definition selections (out : list event) : list event := filter isSelection out.

(** The numeric columns, in the order the loader parses them, and the
    text of a column in a row. *)
Definition numericCols : list string :=
  ["impressions"; "clicks"; "conversions"; "spend"; "revenue"].

Definition cell (header : columnIndex) (row : list string) (col : string) : option string :=
  nth_error row (indexOf header col).

(** Exact values.  A finite binary64 is [+-m * 2^e]; its value is a
    rational, computed here without rounding.  [+Inf], [-Inf] and NaN
    have none. *)
Module Exact.
Import QArith Qround Qabs.

Definition SFvalue (x : spec_float) : option Q :=
  match x with
  | S754_zero _ => Some (0 # 1)
  | S754_finite s m e =>
      let n := if s then Zneg m else Zpos m in
      Some match e with
           | Zneg k => n # (2 ^ k)
           | _ => inject_Z (n * 2 ^ e)
           end
  | _ => None
  end.

Definition valueOf (x : float) : option Q := SFvalue (Prim2SF x).

(** The integer nearest to a rational, a tie going away from zero:
    [2.5] gives [3], [-2.5] gives [-3], [2.4999] gives [2]. *)
Definition halfAwayFromZero (q : Q) : Z :=
  (Z.sgn (Qnum q) * Qfloor (Qabs q + (1 # 2)))%Z.

(** The float [x] is finite and its value is the integer [n]. *)
Definition isInteger (x : float) (n : Z) : Prop :=
  match valueOf x with
  | Some q => q == inject_Z n
  | None => False
  end.

(** The rational [q] rounded to two decimals, half away from zero, as a
    number of hundredths: [2.674999] gives [267], [2.675] gives [268]. *)
Definition hundredths (q : Q) : Z := halfAwayFromZero (q * (100 # 1)).

End Exact.

(** "Rounded to 2 decimal places, half away from zero", for binary64.
    [r] is the two-decimal rounding of [v] when it is the binary64
    quotient [n / 100] of a whole number of hundredths [n], and [n] is the
    integer nearest to the binary64 product [v * 100], a tie going away
    from zero.  When that product is not finite (it has overflowed, or
    [v] is infinite or NaN) there is no such integer, and [r] is the
    product itself.  The two roundings of binary64 in it, of [v * 100]
    and of [n / 100], are those of the float operations. *)
Definition roundedToCents (v r : float) : Prop :=
  match Exact.valueOf (v * 100) with
  | Some q => exists n : float,
      Exact.isInteger n (Exact.halfAwayFromZero q) /\ r = (n / 100)%float
  | None => r = (v * 100)%float
  end.

(** The spec's [safeDiv(a, b)]: [a / b] when [b] is not zero, else [0]. *)
Definition safeDiv (a b : float) : float :=
  if (b =? 0)%float then 0%float else (a / b)%float.

(** The zero-denominator policy and the formula of one ratio [r] with
    numerator [num] and denominator [den]: exactly [0] when the
    denominator is zero, otherwise the binary64 quotient (times 100 for
    the two percentages) rounded to two decimals; and in both cases
    [r >= 0], which NaN is not. *)
Definition followsPolicy (percent : bool) (num den r : float) : Prop :=
  ((den =? 0)%float = true -> r = 0%float) /\
  ((den =? 0)%float = false ->
   roundedToCents (if percent then num / den * 100 else num / den)%float r) /\
  (r >=? 0)%float = true.

(** The first row of the sample data, and a row without impressions. *)
Definition googleSearchBrand : Campaign :=
  {| Campaign.Name := "Google Search - Brand";
     Campaign.Impressions := 120000; Campaign.Clicks := 4800;
     Campaign.Conversions := 320; Campaign.Spend := 1850;
     Campaign.Revenue := 9200 |}.

Definition emailNewsletter : Campaign :=
  {| Campaign.Name := "Email - Newsletter";
     Campaign.Impressions := 0; Campaign.Clicks := 12000;
     Campaign.Conversions := 680; Campaign.Spend := 320;
     Campaign.Revenue := 8160 |}.

(** Two campaigns of different size, with ROAS 1.00 and 5.00. *)
Definition bigCampaign : Campaign :=
  {| Campaign.Name := "A";
     Campaign.Impressions := 50000; Campaign.Clicks := 1000;
     Campaign.Conversions := 100; Campaign.Spend := 1000;
     Campaign.Revenue := 1000 |}.

Definition smallCampaign : Campaign :=
  {| Campaign.Name := "B";
     Campaign.Impressions := 500; Campaign.Clicks := 10;
     Campaign.Conversions := 1; Campaign.Spend := 10;
     Campaign.Revenue := 50 |}.

(** Two campaigns with the same ROAS, 1.00. *)
Definition tieFirst : Campaign :=
  {| Campaign.Name := "first";
     Campaign.Impressions := 1000; Campaign.Clicks := 100;
     Campaign.Conversions := 10; Campaign.Spend := 200;
     Campaign.Revenue := 200 |}.

Definition tieSecond : Campaign :=
  {| Campaign.Name := "second";
     Campaign.Impressions := 3000; Campaign.Clicks := 150;
     Campaign.Conversions := 30; Campaign.Spend := 450;
     Campaign.Revenue := 450 |}.

(** Texts that differ only in the case of their ASCII letters. *)
Fixpoint isASCII (s : string) : bool :=
  match s with
  | String c r => (nat_of_ascii c <? 128)%nat && isASCII r
  | EmptyString => true
  end.

Fixpoint lowerASCII (s : string) : string :=
  match s with
  | String c r => String (strings.lowerByte c) (lowerASCII r)
  | EmptyString => EmptyString
  end.

Definition sameIgnoringCase (s t : string) : Prop :=
  isASCII s = true /\ isASCII t = true /\ lowerASCII s = lowerASCII t.

(** Flags for the examples: a file name and a sort key. *)
Definition flagsSortedBy (key : string) : Flags :=
  {| filePath := "campaigns.csv"; sortBy := key; minROAS := 0 |}.

(** Thirteen campaigns: twelve with ROAS 1.00 and a last one with 5.00. *)
Definition flatCampaign (name : string) (revenue : float) : Campaign :=
  {| Campaign.Name := name;
     Campaign.Impressions := 1000; Campaign.Clicks := 100;
     Campaign.Conversions := 10; Campaign.Spend := 100;
     Campaign.Revenue := revenue |}.

Definition thirteenCampaigns : list Campaign :=
  map (fun name => flatCampaign name 100)
      ["c00"; "c01"; "c02"; "c03"; "c04"; "c05"; "c06"; "c07"; "c08"; "c09"; "c10"; "c11"]
  ++ [flatCampaign "c12" 500].

(** A file of two campaigns: the first has revenue but no conversions
    (its CPA is forced to 0), the second has conversions and a CPA of 10. *)
Definition headerRow : list string :=
  ["campaign_name"; "impressions"; "clicks"; "conversions"; "spend"; "revenue"].

Definition organicAndPaid : fileContents :=
  Records [headerRow;
           ["Organic Social"; "5000"; "200"; "0"; "100"; "900"];
           ["Paid Search"; "8000"; "400"; "20"; "200"; "1000"]].

Definition paidOnly : fileContents :=
  Records [headerRow; ["Paid Search"; "8000"; "400"; "20"; "200"; "1000"]].

(** A column of a row parses when the row has the cell and the loader's
    [parseFloat] accepts its text; a row parses when its five numeric
    columns do. *)
Definition parsesCol (ParseFloat : string -> option float) (header : columnIndex)
           (row : list string) (col : string) : Prop :=
  exists s v, cell header row col = Some s /\ parseFloat ParseFloat s = Some v.

Definition rowParses (ParseFloat : string -> option float) (header : columnIndex)
           (row : list string) : Prop :=
  forall col, In col numericCols -> parsesCol ParseFloat header row col.

(** A file whose third line has a text that is no number in its spend
    column, and a file whose only campaign has a negative measure. *)
Definition badSpendFile : list (list string) :=
  [headerRow;
   ["Paid Search"; "8000"; "400"; "20"; "200"; "1000"];
   ["Display"; "1,200"; "40 "; "2"; "n/a "; "oops"];
   ["Video"; "x"; "1"; "1"; "1"; "1"]].

Definition negativeFile : fileContents :=
  Records [headerRow; ["Refunds"; "-5"; "1"; "1"; "1"; "-20.50"]].


(** The name under which a cell of the header row enters the [header]
    map, and a header row that has a cell of a given name. *)
Definition columnName (h : string) : string := strings.ToLower (strings.TrimSpace h).

Definition named (first : list string) (col : string) : Prop :=
  exists h, In h first /\ columnName h = col.

(** Records as csv.Reader returns them: each has as many fields as the
    first. *)
Definition uniform (rows : list (list string)) : Prop :=
  match rows with
  | [] => True
  | first :: data => Forall (fun row => List.length row = List.length first) data
  end.

(** A column of a row parses as [v]; a row gives the campaign [c] when
    its name is the trimmed text of the name column and its five measures
    are what the five numeric columns parse as. *)
Definition parsedAs (ParseFloat : string -> option float) (header : columnIndex)
           (row : list string) (col : string) (v : float) : Prop :=
  exists s, cell header row col = Some s /\ parseFloat ParseFloat s = Some v.

Definition rowGives (ParseFloat : string -> option float) (header : columnIndex)
           (row : list string) (c : Campaign) : Prop :=
  (exists name, cell header row "campaign_name" = Some name /\
                Campaign.Name c = strings.TrimSpace name) /\
  parsedAs ParseFloat header row "impressions" (Campaign.Impressions c) /\
  parsedAs ParseFloat header row "clicks" (Campaign.Clicks c) /\
  parsedAs ParseFloat header row "conversions" (Campaign.Conversions c) /\
  parsedAs ParseFloat header row "spend" (Campaign.Spend c) /\
  parsedAs ParseFloat header row "revenue" (Campaign.Revenue c).

(** The five carried-forward measures of a record are [>= 0]. *)
Definition measuresNonNeg (m : Metrics) : Prop :=
  (Metrics.Impressions m >=? 0)%float = true /\ (Metrics.Clicks m >=? 0)%float = true /\
  (Metrics.Conversions m >=? 0)%float = true /\ (Metrics.Spend m >=? 0)%float = true /\
  (Metrics.Revenue m >=? 0)%float = true.

(** A file whose columns are in another order, named in other cases, with
    a column the program does not use; and a file without a spend column. *)
Definition shuffledFile : list (list string) :=
  [["Revenue"; "Spend "; "Campaign_Name"; "CLICKS"; "impressions"; "Conversions"; "notes"];
   ["9,200.00"; "1850"; "Google Search - Brand "; "4800"; "120,000"; "320"; "ok"];
   ["-20.5"; "1"; "Refunds"; "1"; "5"; "1"; ""]].

Definition noSpendFile : list (list string) :=
  [["campaign_name"; "impressions"; "clicks"; "conversions"; "cost"; "revenue"];
   ["Paid Search"; "8000"; "400"; "20"; "200"; "1000"]].

(** The two campaigns of [organicAndPaid], and flags with a threshold. *)
Definition organicSocial : Campaign :=
  {| Campaign.Name := "Organic Social"; Campaign.Impressions := 5000;
     Campaign.Clicks := 200; Campaign.Conversions := 0;
     Campaign.Spend := 100; Campaign.Revenue := 900 |}.

Definition paidSearch : Campaign :=
  {| Campaign.Name := "Paid Search"; Campaign.Impressions := 8000;
     Campaign.Clicks := 400; Campaign.Conversions := 20;
     Campaign.Spend := 200; Campaign.Revenue := 1000 |}.

Definition flagsWithMinROAS (key : string) (threshold : float) : Flags :=
  {| filePath := "campaigns.csv"; sortBy := key; minROAS := threshold |}.

(** A campaign whose ROAS is the binary64 nearest to 2.675, which is
    below 2.675; and one whose measures are whole numbers. *)
Definition halfCentCampaign : Campaign :=
  {| Campaign.Name := "half cent"; Campaign.Impressions := 1; Campaign.Clicks := 1;
     Campaign.Conversions := 1; Campaign.Spend := 1;
     Campaign.Revenue := 0x1.5666666666666p+1 |}.

Definition wholeNumberCampaign : Campaign :=
  {| Campaign.Name := "whole numbers"; Campaign.Impressions := 1; Campaign.Clicks := 1;
     Campaign.Conversions := 1; Campaign.Spend := 1;
     Campaign.Revenue := 500000000000001 |}.

(** The six ratios of a record are [>= 0]; none is NaN. *)
Definition ratiosNonNeg (m : Metrics) : Prop :=
  (Metrics.CTR m >=? 0)%float = true /\ (Metrics.CVR m >=? 0)%float = true /\
  (Metrics.CPC m >=? 0)%float = true /\ (Metrics.CPA m >=? 0)%float = true /\
  (Metrics.ROAS m >=? 0)%float = true /\ (Metrics.RevPerConv m >=? 0)%float = true.

(** A campaign whose spend and revenue are the largest power of two. *)
Definition hugeCampaign : Campaign :=
  {| Campaign.Name := "huge"; Campaign.Impressions := 1; Campaign.Clicks := 1;
     Campaign.Conversions := 1; Campaign.Spend := 0x1p1023;
     Campaign.Revenue := 0x1p1023 |}.

(** The sign and class of a [spec_float]: [>= 0], and carrying a given
    sign bit. *)
Module F64.
Definition SFge0 (s : spec_float) : bool :=
  match s with
  | S754_zero _ | S754_infinity false | S754_finite false _ _ => true
  | _ => false
  end.

Definition SFsigned (sx : bool) (r : spec_float) : bool :=
  match r with
  | S754_zero s | S754_infinity s | S754_finite s _ _ => Bool.eqb s sx
  | S754_nan => false
  end.

(** Case analysis on the comparisons of exponents and mantissas that
    [SFcompare] makes, closed by linear arithmetic. *)
Ltac cmp_cases :=
  repeat match goal with
  | H : context [Pos.compare_cont Eq ?a ?b] |- _ =>
      change (Pos.compare_cont Eq a b) with (Pos.compare a b) in H
  | |- context [Pos.compare_cont Eq ?a ?b] =>
      change (Pos.compare_cont Eq a b) with (Pos.compare a b)
  end;
  repeat match goal with
  | H : context [Z.compare ?a ?b] |- _ => destruct (Z.compare_spec a b); simpl in H
  | H : context [Pos.compare ?a ?b] |- _ => destruct (Pos.compare_spec a b); simpl in H
  | |- context [Z.compare ?a ?b] => destruct (Z.compare_spec a b); simpl
  | |- context [Pos.compare ?a ?b] => destruct (Pos.compare_spec a b); simpl
  end;
  subst; try discriminate; try reflexivity; try lia.
End F64.

(* ================================================================== *)
(** ** Facts about binary64 *)

Module F64Facts.
Import F64.

Lemma Prim2SF_zero : Prim2SF 0 = S754_zero false.
Proof. reflexivity. Qed.

Lemma Prim2SF_infinity : Prim2SF infinity = S754_infinity false.
Proof. reflexivity. Qed.

Lemma Prim2SF_100 : Prim2SF 100 = S754_finite false 7036874417766400 (-46).
Proof. reflexivity. Qed.

Lemma leb_zero_spec (x : float) : (0 <=? x)%float = SFge0 (Prim2SF x).
Proof.
  rewrite FloatAxioms.leb_spec, Prim2SF_zero.
  destruct (Prim2SF x) as [[]|[]| |[] m e]; reflexivity.
Qed.

Lemma ge0_not_nan (x : float) : (0 <=? x)%float = true -> Prim2SF x <> S754_nan.
Proof.
  rewrite leb_zero_spec. intros H E. rewrite E in H. discriminate.
Qed.

(** *** Rounding keeps the sign *)

Lemma shr_1_nonneg (mrs : shr_record) :
  (0 <= shr_m mrs)%Z -> (0 <= shr_m (shr_1 mrs))%Z.
Proof.
  destruct mrs as [m r s]; simpl.
  destruct m as [|[p|p|]|[p|p|]]; simpl; lia.
Qed.

Lemma iter_shr_1_nonneg (p : positive) : forall mrs,
  (0 <= shr_m mrs)%Z -> (0 <= shr_m (iter_pos shr_1 p mrs))%Z.
Proof.
  induction p as [p IH|p IH|]; intros mrs H; simpl.
  - apply IH, IH, shr_1_nonneg, H.
  - apply IH, IH, H.
  - apply shr_1_nonneg, H.
Qed.

Lemma shr_fexp_nonneg (m e : Z) (l : location) :
  (0 <= m)%Z -> (0 <= shr_m (fst (shr_fexp prec emax m e l)))%Z.
Proof.
  intros H. unfold shr_fexp, shr.
  assert (H0 : (0 <= shr_m (shr_record_of_loc m l))%Z)
    by (destruct l as [|[]]; simpl; exact H).
  destruct (fexp prec emax (Zdigits2 m + e) - e)%Z; simpl; auto.
  apply iter_shr_1_nonneg, H0.
Qed.

Lemma round_nearest_even_nonneg (m : Z) (l : location) :
  (0 <= m)%Z -> (0 <= round_nearest_even m l)%Z.
Proof.
  intros H. destruct l as [|[]]; simpl; try lia.
  destruct (Z.even m); lia.
Qed.

Lemma binary_round_aux_signed (sx : bool) (mx ex : Z) (lx : location) :
  (0 <= mx)%Z -> SFsigned sx (binary_round_aux prec emax sx mx ex lx) = true.
Proof.
  intros H. unfold binary_round_aux.
  pose proof (shr_fexp_nonneg mx ex lx H) as H1.
  destruct (shr_fexp prec emax mx ex lx) as [mrs' e']. simpl in H1.
  pose proof (shr_fexp_nonneg _ e' loc_Exact
                (round_nearest_even_nonneg _ (loc_of_shr_record mrs') H1)) as H2.
  destruct (shr_fexp prec emax _ e' loc_Exact) as [mrs'' e'']. simpl in H2.
  destruct (shr_m mrs'') as [|m|m]; simpl.
  - apply eqb_reflx.
  - destruct (e'' <=? _)%Z; simpl; apply eqb_reflx.
  - lia.
Qed.

Lemma SFsigned_false_ge0 (r : spec_float) : SFsigned false r = true -> SFge0 r = true.
Proof. destruct r as [[]|[]| |[] m e]; simpl; congruence. Qed.

Lemma SFdiv_core_nonneg (m1 m2 : positive) (e1 e2 : Z) :
  (0 <= fst (fst (SFdiv_core_binary prec emax (Zpos m1) e1 (Zpos m2) e2)))%Z.
Proof.
  unfold SFdiv_core_binary.
  set (s := (e1 - e2 - _)%Z).
  set (m' := match s with Zpos _ => Z.shiftl (Zpos m1) s | Z0 => Zpos m1 | Zneg _ => 0%Z end).
  assert (Hm : (0 <= m')%Z).
  { subst m'. destruct s; try lia. apply Z.shiftl_nonneg. lia. }
  pose proof (Z.div_pos m' (Zpos m2) Hm ltac:(lia)) as Hq.
  unfold Z.div in Hq.
  destruct (Z.div_eucl m' (Zpos m2)) as [q r]. exact Hq.
Qed.

(** [x >= 0] divided by a non-zero [y >= 0] is [>= 0], unless both are
    infinite. *)
Lemma SFdiv_ge0 (x y : spec_float) :
  SFge0 x = true -> SFge0 y = true ->
  (match x, y with
   | S754_infinity _, S754_infinity _ | _, S754_zero _ => False
   | _, _ => True
   end) ->
  SFge0 (SFdiv prec emax x y) = true.
Proof.
  destruct x as [sx|sx| |sx mx ex], y as [sy|sy| |sy my ey]; simpl;
    try discriminate; try tauto;
    destruct sx, sy; simpl; try discriminate; try reflexivity.
  intros _ _ _.
  pose proof (SFdiv_core_nonneg mx my ex ey) as H.
  destruct (SFdiv_core_binary prec emax (Zpos mx) ex (Zpos my) ey) as [[mz ez] lz].
  simpl in H. apply SFsigned_false_ge0, binary_round_aux_signed, H.
Qed.

(** [x >= 0] times a finite non-zero [y >= 0] is [>= 0]. *)
Lemma SFmul_ge0 (x : spec_float) (my : positive) (ey : Z) :
  SFge0 x = true ->
  SFge0 (SFmul prec emax x (S754_finite false my ey)) = true.
Proof.
  destruct x as [sx|sx| |sx mx ex]; simpl; try discriminate;
    destruct sx; simpl; try discriminate; try reflexivity.
  intros _. apply SFsigned_false_ge0, binary_round_aux_signed. lia.
Qed.

Lemma mul_100_ge0 (x : float) : (0 <=? x)%float = true -> (0 <=? x * 100)%float = true.
Proof.
  rewrite !leb_zero_spec, FloatAxioms.mul_spec, Prim2SF_100. apply SFmul_ge0.
Qed.

Lemma div_100_ge0 (x : float) : (0 <=? x)%float = true -> (0 <=? x / 100)%float = true.
Proof.
  rewrite !leb_zero_spec, FloatAxioms.div_spec, Prim2SF_100. intros H.
  apply SFdiv_ge0; trivial.
  destruct (Prim2SF x); exact I.
Qed.

Lemma of_uint63_ge0 (n : int) : (0 <=? of_uint63 n)%float = true.
Proof.
  rewrite leb_zero_spec, of_uint63_spec.
  pose proof (Uint63.to_Z_bounded n) as [H _].
  unfold binary_normalize.
  destruct (Uint63.to_Z n) as [|m|m]; try lia; try reflexivity.
  unfold binary_round.
  destruct (shl_align m 0 _) as [mz ez].
  apply SFsigned_false_ge0, binary_round_aux_signed. lia.
Qed.

Lemma Round_ge0 (x : float) : (0 <=? x)%float = true -> (0 <=? math.Round x)%float = true.
Proof.
  intros H. unfold math.Round.
  pose proof H as H'. rewrite leb_zero_spec in H'.
  destruct (Prim2SF x) as [sx|sx| |sx mx ex]; try exact H.
  destruct sx; simpl in H'; try discriminate.
  destruct (0 <=? ex)%Z; [exact H|]. apply of_uint63_ge0.
Qed.

Lemma round2_ge0 (v : float) : (0 <=? v)%float = true -> (0 <=? round2 v)%float = true.
Proof.
  intros H. unfold round2. apply div_100_ge0, Round_ge0, mul_100_ge0, H.
Qed.

Lemma safe_ge0 (a b : float) :
  nonNegFinite a = true -> (0 <=? b)%float = true -> (0 <=? safe a b)%float = true.
Proof.
  unfold nonNegFinite, safe. intros Ha Hb.
  apply andb_true_iff in Ha as [Ha Hfin].
  destruct (b =? 0)%float eqn:E; [reflexivity|].
  rewrite leb_zero_spec in *. rewrite FloatAxioms.div_spec.
  rewrite FloatAxioms.ltb_spec, Prim2SF_infinity in Hfin.
  rewrite FloatAxioms.eqb_spec, Prim2SF_zero in E.
  apply SFdiv_ge0; trivial.
  destruct (Prim2SF a) as [| [] | |], (Prim2SF b) as [[]| | |];
    simpl in *; trivial; discriminate.
Qed.

(** *** The order of binary64 *)

Lemma SFltb_irrefl (x : spec_float) : SFltb x x = false.
Proof.
  unfold SFltb. destruct x as [[]|[]| |[] m e]; simpl; try reflexivity; cmp_cases.
Qed.

Lemma SFltb_trans (x y z : spec_float) :
  SFltb x y = true -> SFltb y z = true -> SFltb x z = true.
Proof.
  unfold SFltb.
  destruct x as [[]|[]| |[] mx ex], y as [[]|[]| |[] my ey], z as [[]|[]| |[] mz ez];
    simpl; try discriminate; try reflexivity; intros H1 H2; cmp_cases.
Qed.

Lemma SFltb_incomparable_trans (x y z : spec_float) :
  y <> S754_nan ->
  SFltb x y = false -> SFltb y z = false -> SFltb x z = false.
Proof.
  unfold SFltb.
  destruct x as [[]|[]| |[] mx ex], y as [[]|[]| |[] my ey], z as [[]|[]| |[] mz ez];
    simpl; try discriminate; try reflexivity; try congruence; intros _ H1 H2; cmp_cases.
Qed.

Lemma SFltb_false_leb (x y : spec_float) :
  x <> S754_nan -> y <> S754_nan -> SFltb x y = false -> SFleb y x = true.
Proof.
  unfold SFltb, SFleb.
  destruct x as [[]|[]| |[] mx ex], y as [[]|[]| |[] my ey];
    simpl; try discriminate; try reflexivity; try congruence; intros _ _ H1; cmp_cases.
Qed.

Lemma SFleb_true_ltb_false (x y : spec_float) :
  SFleb x y = true -> SFltb y x = false.
Proof.
  unfold SFltb, SFleb.
  destruct x as [[]|[]| |[] mx ex], y as [[]|[]| |[] my ey];
    simpl; try discriminate; try reflexivity; intros H1; cmp_cases.
Qed.

Lemma leb_true_ltb_false (x y : float) :
  (x <=? y)%float = true -> (y <? x)%float = false.
Proof.
  rewrite FloatAxioms.ltb_spec, FloatAxioms.leb_spec. apply SFleb_true_ltb_false.
Qed.

Lemma SFleb_refl (x : spec_float) : x <> S754_nan -> SFleb x x = true.
Proof.
  unfold SFleb. destruct x as [[]|[]| |[] m e]; simpl; try reflexivity; try congruence;
    intros _; cmp_cases.
Qed.

Lemma SFltb_leb_trans (x y z : spec_float) :
  SFltb x y = true -> SFleb y z = true -> SFleb x z = true.
Proof.
  unfold SFltb, SFleb.
  destruct x as [[]|[]| |[] mx ex], y as [[]|[]| |[] my ey], z as [[]|[]| |[] mz ez];
    simpl; try discriminate; try reflexivity; intros H1 H2; cmp_cases.
Qed.

Lemma leb_refl (x : float) : (0 <=? x)%float = true -> (x <=? x)%float = true.
Proof.
  intros H. rewrite FloatAxioms.leb_spec. apply SFleb_refl, ge0_not_nan, H.
Qed.

Lemma ltb_leb_trans (x y z : float) :
  (x <? y)%float = true -> (y <=? z)%float = true -> (x <=? z)%float = true.
Proof.
  rewrite FloatAxioms.ltb_spec, !FloatAxioms.leb_spec. apply SFltb_leb_trans.
Qed.

Lemma ltb_irrefl (x : float) : (x <? x)%float = false.
Proof. rewrite FloatAxioms.ltb_spec. apply SFltb_irrefl. Qed.

Lemma ltb_trans (x y z : float) :
  (x <? y)%float = true -> (y <? z)%float = true -> (x <? z)%float = true.
Proof. rewrite !FloatAxioms.ltb_spec. apply SFltb_trans. Qed.

Lemma ltb_incomparable_trans (x y z : float) :
  (0 <=? y)%float = true ->
  (x <? y)%float = false -> (y <? z)%float = false -> (x <? z)%float = false.
Proof.
  intros Hy. rewrite !FloatAxioms.ltb_spec.
  apply SFltb_incomparable_trans, ge0_not_nan, Hy.
Qed.

Lemma ltb_false_leb (x y : float) :
  (0 <=? x)%float = true -> (0 <=? y)%float = true ->
  (x <? y)%float = false -> (y <=? x)%float = true.
Proof.
  intros Hx Hy. rewrite FloatAxioms.ltb_spec, FloatAxioms.leb_spec.
  apply SFltb_false_leb; apply ge0_not_nan; assumption.
Qed.

End F64Facts.

(* ================================================================== *)
(** ** The library functions on examples *)

Example Round_ties :
  (math.Round 0.5 = 1 /\ math.Round (-0.5) = -1 /\ math.Round 2.5 = 3 /\
   math.Round (-2.5) = -3 /\ math.Round 0.49999999999999994 = 0 /\
   math.Round 578.125 = 578 /\ math.Round 4503599627370497 = 4503599627370497)%float.
Proof. repeat split; vm_compute; reflexivity. Qed.

Example Round_special :
  (math.Round nan = nan /\ math.Round infinity = infinity /\
   math.Round neg_infinity = neg_infinity /\
   math.Round 0 = 0 /\ math.Round (-0) = (-0) /\ math.Round (-0.25) = (-0))%float.
Proof. repeat split; vm_compute; reflexivity. Qed.

Example ToLower_examples :
  strings.ToLower "ROAS" = "roas" /\ strings.ToLower "Campaign_Name" = "campaign_name" /\
  strings.ToLower (String "196" (String "176" "mpressions")) = "impressions" /\
  strings.ToLower (String "c" (String "l" (String "i" (String "c"
                     (String "226" (String "132" (String "170" "s"))))))) = "clicks".
Proof. repeat split; reflexivity. Qed.

Example TrimSpace_examples :
  strings.TrimSpace "  spend " = "spend" /\
  strings.TrimSpace (String "009" (String "194" (String "160" "a b"))) = "a b" /\
  strings.TrimSpace (String "a" (String "194" (String " " EmptyString)))
    = String "a" (String "194" EmptyString) /\
  strings.TrimSpace (String "x" (String "227" (String "128" (String "128" (String "010" ""))))) = "x" /\
  strings.TrimSpace "   " = "".
Proof. repeat split; reflexivity. Qed.

Example ParseDecimal_examples :
  strconv.ParseDecimal "1850.00" = Some 1850%float /\
  strconv.ParseDecimal "0.1" = Some 0.1%float /\
  strconv.ParseDecimal "-5" = Some (-5)%float /\
  strconv.ParseDecimal "+12.5" = Some 12.5%float /\
  strconv.ParseDecimal "-0" = Some (-0)%float /\
  strconv.ParseDecimal "" = None /\ strconv.ParseDecimal "n/a" = None.
Proof. repeat split; vm_compute; reflexivity. Qed.

Example Slice_example :
  sort.Slice Nat.ltb [3; 1; 2; 5; 4; 9; 8; 7; 6; 13; 12; 11; 10; 0; 15; 14]%nat =
  Some [0; 1; 2; 3; 4; 5; 6; 7; 8; 9; 10; 11; 12; 13; 14; 15]%nat.
Proof. vm_compute. reflexivity. Qed.

(* ================================================================== *)
(** ** The metrics engine *)

Lemma nearestAway_bounds (m k : positive) :
  let n := math.nearestAway m (Zneg k) in
  ((2 * n - 1) * 2 ^ Zpos k <= 2 * Zpos m < (2 * n + 1) * 2 ^ Zpos k)%Z.
Proof.
  unfold math.nearestAway. cbv zeta.
  change (- Zneg k)%Z with (Zpos k).
  rewrite Z.shiftr_div_pow2, Z.land_ones, Z.shiftl_1_l by lia.
  assert (Hk : (2 ^ Zpos k = 2 * 2 ^ (Zpos k - 1))%Z).
  { rewrite <- Z.pow_succ_r by lia. f_equal. lia. }
  assert (Hpos : (0 < 2 ^ (Zpos k - 1))%Z) by (apply Z.pow_pos_nonneg; lia).
  pose proof (Z.div_mod (Zpos m) (2 ^ Zpos k) ltac:(lia)) as Hdm.
  pose proof (Z.mod_pos_bound (Zpos m) (2 ^ Zpos k) ltac:(lia)) as Hr.
  destruct (Z.leb_spec (2 ^ (Zpos k - 1)) (Zpos m mod 2 ^ Zpos k)); nia.
Qed.

(* ------------------------------------------------------------------ *)
(** *** Exact values: [math.Round] and [round2] *)

Module ExactFacts.
Import QArith Qround Qabs.
Import Exact.
Local Open Scope Z_scope.

Lemma digits2_pos_bounds (p : positive) :
  2 ^ (Zpos (digits2_pos p) - 1) <= Zpos p < 2 ^ Zpos (digits2_pos p).
Proof.
  induction p as [p IH|p IH|]; cbn [digits2_pos].
  - rewrite Pos2Z.inj_succ.
    replace (Z.succ (Zpos (digits2_pos p)) - 1) with (Z.succ (Zpos (digits2_pos p) - 1)) by lia.
    rewrite !Z.pow_succ_r by lia. lia.
  - rewrite Pos2Z.inj_succ.
    replace (Z.succ (Zpos (digits2_pos p)) - 1) with (Z.succ (Zpos (digits2_pos p) - 1)) by lia.
    rewrite !Z.pow_succ_r by lia. lia.
  - simpl. lia.
Qed.

Lemma digits2_pos_iter_xO (d p : positive) :
  digits2_pos (Pos.iter xO p d) = (digits2_pos p + d)%positive.
Proof.
  induction d as [|d IH] using Pos.peano_ind.
  - simpl. lia.
  - rewrite Pos.iter_succ. cbn [digits2_pos]. rewrite IH. lia.
Qed.

Lemma iter_xO_value (d p : positive) :
  Zpos (Pos.iter xO p d) = Zpos p * 2 ^ Zpos d.
Proof.
  induction d as [|d IH] using Pos.peano_ind.
  - simpl. lia.
  - rewrite Pos.iter_succ, Pos2Z.inj_xO, IH, Pos2Z.inj_succ, Z.pow_succ_r by lia. lia.
Qed.

(** An integer of at most 53 bits is a binary64: rounding it only shifts
    the mantissa to 53 bits. *)
Lemma binary_round_exact (p : positive) (s : bool) :
  Zpos (digits2_pos p) <= 53 ->
  exists m e,
    binary_round prec emax s p 0 = S754_finite s m e /\
    e <= 0 /\ Zpos m = Zpos p * 2 ^ (- e).
Proof.
  intros Hd. unfold binary_round.
  assert (Hf : fexp prec emax (Zpos (digits2_pos p) + 0) = Zpos (digits2_pos p) - 53).
  { unfold fexp, emin, prec, emax. lia. }
  rewrite Hf. unfold shl_align.
  destruct (Zpos (digits2_pos p) - 53 - 0) as [|d|d] eqn:E; try lia.
  - exists p, 0. split; [|split; [lia|simpl; lia]].
    unfold binary_round_aux, shr_fexp. cbn [Zdigits2 shr_record_of_loc].
    replace (fexp prec emax (Zpos (digits2_pos p) + 0) - 0) with 0
      by (unfold fexp, emin, prec, emax; lia).
    cbn [shr shr_m loc_of_shr_record round_nearest_even Zdigits2].
    replace (fexp prec emax (Zpos (digits2_pos p) + 0) - 0) with 0
      by (unfold fexp, emin, prec, emax; lia).
    cbn [shr shr_m]. reflexivity.
  - exists (Pos.iter xO p d), (Zpos (digits2_pos p) - 53).
    assert (Hdig : Zpos (digits2_pos (Pos.iter xO p d)) = 53).
    { rewrite digits2_pos_iter_xO. lia. }
    split; [|split; [lia|]].
    + unfold binary_round_aux, shr_fexp. cbn [Zdigits2 shr_record_of_loc].
      rewrite Hdig.
      replace (fexp prec emax (53 + (Zpos (digits2_pos p) - 53)) - (Zpos (digits2_pos p) - 53))
        with 0 by (unfold fexp, emin, prec, emax; lia).
      cbn [shr shr_m loc_of_shr_record round_nearest_even Zdigits2].
      rewrite Hdig.
      replace (fexp prec emax (53 + (Zpos (digits2_pos p) - 53)) - (Zpos (digits2_pos p) - 53))
        with 0 by (unfold fexp, emin, prec, emax; lia).
      cbn [shr shr_m].
      destruct (Z.leb_spec (Zpos (digits2_pos p) - 53) (emax - prec)) as [_|H];
        [reflexivity|unfold emax, prec in H; lia].
    + rewrite iter_xO_value. f_equal. f_equal. lia.
Qed.

Lemma valid_mantissa (x : float) (s : bool) (m : positive) (e : Z) :
  Prim2SF x = S754_finite s m e -> Zpos (digits2_pos m) <= 53.
Proof.
  intros E. pose proof (FloatAxioms.Prim2SF_valid x) as V. rewrite E in V.
  cbn [valid_binary] in V. unfold bounded, canonical_mantissa in V.
  apply andb_true_iff in V as [V _]. apply Z.eqb_eq in V.
  unfold fexp, emin, prec, emax in V. lia.
Qed.

(** The conversion of an integer below [2^53] to a float is exact. *)
Lemma of_uint63_exact (n : Z) :
  0 <= n < 2 ^ 53 ->
  isInteger (of_uint63 (Uint63.of_Z n)) n /\ isInteger (- of_uint63 (Uint63.of_Z n)) (- n).
Proof.
  intros Hn. unfold isInteger, valueOf.
  rewrite FloatAxioms.opp_spec, FloatAxioms.of_uint63_spec, Uint63.of_Z_spec.
  rewrite Z.mod_small by (unfold wB, size; simpl; lia).
  destruct n as [|p|p]; [split; reflexivity| |lia].
  cbn [binary_normalize].
  assert (Hd : Zpos (digits2_pos p) <= 53).
  { pose proof (digits2_pos_bounds p) as [Hlo _].
    destruct (Z.le_gt_cases (Zpos (digits2_pos p)) 53) as [|Hgt]; [assumption|exfalso].
    assert (2 ^ 53 <= 2 ^ (Zpos (digits2_pos p) - 1)) by (apply Z.pow_le_mono_r; lia).
    lia. }
  destruct (binary_round_exact p false Hd) as (m & e & -> & He & Hm).
  cbn [SFopp SFvalue negb].
  destruct e as [|e|e]; try lia.
  - simpl in Hm. split; unfold Qeq; simpl; lia.
  - change (- Zneg e) with (Zpos e) in Hm.
    split; unfold Qeq; cbn [Qnum Qden inject_Z];
      rewrite Pos2Z.inj_pow; lia.
Qed.

Lemma halfAwayFromZero_integer (n : Z) : halfAwayFromZero (inject_Z n) = n.
Proof.
  unfold halfAwayFromZero, Qfloor, Qabs, Qplus, inject_Z. cbn [Qnum Qden].
  replace ((Z.abs n * 2 + 1 * 1) / Zpos (1 * 2)) with (Z.abs n).
  - rewrite Z.mul_comm. apply Z.abs_sgn.
  - apply (Z.div_unique _ _ _ 1); lia.
Qed.

(** On [m / 2^k] the bit test of [math.nearestAway] finds the nearest
    integer, a tie going up. *)
Lemma halfAwayFromZero_fraction (s : bool) (m k : positive) :
  halfAwayFromZero ((if s then Zneg m else Zpos m) # 2 ^ k) =
  (if s then - math.nearestAway m (Zneg k) else math.nearestAway m (Zneg k)).
Proof.
  pose proof (nearestAway_bounds m k) as Hb. cbv zeta in Hb.
  set (n := math.nearestAway m (Zneg k)) in *.
  assert (Hfl : (Zpos m * 2 + 1 * Zpos (2 ^ k)) / Zpos (2 ^ k * 2) = n).
  { rewrite Pos2Z.inj_mul, Pos2Z.inj_pow.
    assert (0 < 2 ^ Zpos k) by (apply Z.pow_pos_nonneg; lia).
    symmetry. apply (Z.div_unique _ _ _ (Zpos m * 2 + 1 * 2 ^ Zpos k - 2 ^ Zpos k * 2 * n)); lia. }
  unfold halfAwayFromZero, Qfloor, Qabs, Qplus. cbn [Qnum Qden].
  destruct s; cbn [Z.abs Z.sgn]; rewrite Hfl; lia.
Qed.

(** [halfAwayFromZero q] is an integer nearest to [q]: it is at most a
    half away, and when it is a half away it is the one of the two
    nearest integers that is farther from zero. *)
Lemma halfAwayFromZero_nearest (q : Q) :
  (Qabs (q - inject_Z (halfAwayFromZero q)) <= 1 # 2)%Q /\
  ((Qabs (q - inject_Z (halfAwayFromZero q)) == 1 # 2)%Q ->
   (Qabs q < Qabs (inject_Z (halfAwayFromZero q)))%Q).
Proof.
  destruct q as [a d].
  cbv beta iota zeta delta
    [halfAwayFromZero Qfloor Qabs Qplus Qminus Qopp Qle Qlt Qeq inject_Z Qnum Qden].
  set (N := (Z.abs a * 2 + 1 * Zpos d) / Zpos (d * 2)).
  assert (HN : N * (2 * Zpos d) <= Z.abs a * 2 + Zpos d < (N + 1) * (2 * Zpos d)).
  { unfold N. rewrite Pos2Z.inj_mul.
    pose proof (Z.div_mod (Z.abs a * 2 + 1 * Zpos d) (Zpos d * 2) ltac:(lia)) as Hdm.
    pose proof (Z.mod_pos_bound (Z.abs a * 2 + 1 * Zpos d) (Zpos d * 2) ltac:(lia)) as Hr.
    lia. }
  clearbody N. rewrite !Pos2Z.inj_mul.
  destruct a as [|a|a]; cbn [Z.sgn Z.abs] in *; (split; [|intros H]); nia.
Qed.

Lemma nearestAway_range (m k : positive) :
  Zpos (digits2_pos m) <= 53 -> 0 <= math.nearestAway m (Zneg k) < 2 ^ 53.
Proof.
  intros Hd. pose proof (nearestAway_bounds m k) as Hb. cbv zeta in Hb.
  set (n := math.nearestAway m (Zneg k)) in *.
  pose proof (digits2_pos_bounds m) as [_ Hhi].
  assert (Zpos m < 2 ^ 53).
  { eapply Z.lt_le_trans; [exact Hhi|]. apply Z.pow_le_mono_r; lia. }
  assert (Hk : 2 <= 2 ^ Zpos k).
  { change 2 with (2 ^ 1) at 1. apply Z.pow_le_mono_r; lia. }
  change (2 ^ 53) with 9007199254740992 in *. nia.
Qed.

(** [math.Round] of a finite float is the float whose value is the
    integer nearest to its value, a tie going away from zero. *)
Lemma Round_halfAwayFromZero (x : float) (q : Q) :
  valueOf x = Some q -> isInteger (math.Round x) (halfAwayFromZero q).
Proof.
  unfold valueOf, math.Round. intros Hq.
  destruct (Prim2SF x) as [s|s| |s m e] eqn:E; try discriminate Hq.
  - injection Hq as <-. unfold isInteger, valueOf. rewrite E. reflexivity.
  - cbn [SFvalue] in Hq. injection Hq as <-.
    destruct e as [|e|k].
    + change (0 <=? 0) with true. cbv iota. rewrite halfAwayFromZero_integer.
      unfold isInteger, valueOf. rewrite E. reflexivity.
    + change (0 <=? Zpos e) with true. cbv iota. rewrite halfAwayFromZero_integer.
      unfold isInteger, valueOf. rewrite E. reflexivity.
    + change (0 <=? Zneg k) with false. cbv iota zeta.
      rewrite halfAwayFromZero_fraction.
      pose proof (nearestAway_range m k (valid_mantissa x s m (Zneg k) E)) as Hr.
      destruct (of_uint63_exact _ Hr) as [Hpos Hneg].
      destruct s; assumption.
Qed.

Lemma Round_not_finite (x : float) : valueOf x = None -> math.Round x = x.
Proof.
  unfold valueOf, math.Round.
  destruct (Prim2SF x); try discriminate; reflexivity.
Qed.

Lemma div_100_not_finite (x : float) : valueOf x = None -> (x / 100)%float = x.
Proof.
  unfold valueOf. intros H. apply FloatAxioms.Prim2SF_inj.
  rewrite FloatAxioms.div_spec, F64Facts.Prim2SF_100.
  destruct (Prim2SF x) as [s|s| |s m e]; try discriminate H; cbn [SFdiv].
  - destruct s; reflexivity.
  - reflexivity.
Qed.

End ExactFacts.

(** [round2] rounds to two decimals, half away from zero, in binary64:
    for every float, NaN and the infinities included. *)
Lemma round2_roundedToCents (v : float) : roundedToCents v (round2 v).
Proof.
  unfold roundedToCents, round2.
  destruct (Exact.valueOf (v * 100)) as [q|] eqn:E.
  - exists (math.Round (v * 100)).
    split; [apply ExactFacts.Round_halfAwayFromZero, E|reflexivity].
  - rewrite (ExactFacts.Round_not_finite _ E). apply ExactFacts.div_100_not_finite, E.
Qed.

Lemma safe_zero (a b : float) : (b =? 0)%float = true -> safe a b = 0%float.
Proof. unfold safe. intros ->. reflexivity. Qed.

Lemma safe_quotient (a b : float) : (b =? 0)%float = false -> safe a b = (a / b)%float.
Proof. unfold safe. intros ->. reflexivity. Qed.

Lemma ratio_followsPolicy (num den : float) :
  nonNegFinite num = true -> nonNegFinite den = true ->
  followsPolicy false num den (round2 (safe num den)) /\
  followsPolicy true num den (round2 (safe num den * 100)).
Proof.
  intros Hn Hd.
  assert (Hd0 : (0 <=? den)%float = true).
  { unfold nonNegFinite in Hd. apply andb_true_iff in Hd. tauto. }
  pose proof (F64Facts.safe_ge0 num den Hn Hd0) as Hq.
  split; (split; [|split]).
  - intros E. rewrite (safe_zero _ _ E). reflexivity.
  - intros E. rewrite (safe_quotient _ _ E). apply round2_roundedToCents.
  - apply F64Facts.round2_ge0, Hq.
  - intros E. rewrite (safe_zero _ _ E). reflexivity.
  - intros E. rewrite (safe_quotient _ _ E). apply round2_roundedToCents.
  - apply F64Facts.round2_ge0, F64Facts.mul_100_ge0, Hq.
Qed.

Lemma validCampaign_measures (c : Campaign) :
  validCampaign c = true ->
  nonNegFinite (Campaign.Impressions c) = true /\
  nonNegFinite (Campaign.Clicks c) = true /\
  nonNegFinite (Campaign.Conversions c) = true /\
  nonNegFinite (Campaign.Spend c) = true /\
  nonNegFinite (Campaign.Revenue c) = true.
Proof.
  unfold validCampaign. rewrite !andb_true_iff. tauto.
Qed.

Lemma nonNegFinite_ge0 (x : float) : nonNegFinite x = true -> (x >=? 0)%float = true.
Proof. unfold nonNegFinite. rewrite andb_true_iff. tauto. Qed.

Lemma computeMetrics_comparable (c : Campaign) :
  validCampaign c = true -> comparable (computeMetrics c).
Proof.
  intros H. apply validCampaign_measures in H as (Hi & Hk & Hv & Hs & Hr).
  unfold comparable, computeMetrics; simpl.
  repeat split;
    first [ apply nonNegFinite_ge0; assumption
          | apply F64Facts.round2_ge0; try apply F64Facts.mul_100_ge0;
            apply F64Facts.safe_ge0; auto using nonNegFinite_ge0 ].
Qed.

(** C1, as amended.  For a record whose measures are finite and
    non-negative, [computeMetrics] (a total function) gives each of the
    six ratios the value of the policy: exactly [0] when the denominator
    field is zero; otherwise the binary64 quotient of the formula rounded
    to two decimals, which is [n / 100] for the integer [n] nearest to
    the quotient times 100, half away from zero, and is the overflowed
    product when that is not finite.  No ratio is NaN or negative. *)
Theorem computeMetrics_zero_denominator_policy (c : Campaign) :
  validCampaign c = true ->
  let m := computeMetrics c in
  followsPolicy true (Campaign.Clicks c) (Campaign.Impressions c) (Metrics.CTR m) /\
  followsPolicy true (Campaign.Conversions c) (Campaign.Clicks c) (Metrics.CVR m) /\
  followsPolicy false (Campaign.Spend c) (Campaign.Clicks c) (Metrics.CPC m) /\
  followsPolicy false (Campaign.Spend c) (Campaign.Conversions c) (Metrics.CPA m) /\
  followsPolicy false (Campaign.Revenue c) (Campaign.Spend c) (Metrics.ROAS m) /\
  followsPolicy false (Campaign.Revenue c) (Campaign.Conversions c) (Metrics.RevPerConv m).
Proof.
  intros H. apply validCampaign_measures in H as (Hi & Hk & Hv & Hs & Hr).
  cbv zeta. unfold computeMetrics; simpl.
  repeat split; apply ratio_followsPolicy; assumption.
Qed.

(** The campaign without impressions: its CTR is [0], and its ROAS is
    the quotient of revenue by spend rounded to two decimals. *)
Lemma computeMetrics_zero_denominator_policy_witness :
  validCampaign emailNewsletter = true /\
  Metrics.CTR (computeMetrics emailNewsletter) = 0%float /\
  roundedToCents (Campaign.Revenue emailNewsletter / Campaign.Spend emailNewsletter)
                 (Metrics.ROAS (computeMetrics emailNewsletter)).
Proof.
  split; [reflexivity|].
  destruct (computeMetrics_zero_denominator_policy emailNewsletter eq_refl)
    as ([Hzero _] & _ & _ & _ & (_ & Hquotient & _) & _).
  split; [apply Hzero; reflexivity|apply Hquotient; reflexivity].
Defined.

(** C1 as stated fails.  The campaign whose spend is [2^1023] has finite
    non-negative measures and one click; the quotient of its CPC is the
    finite [2^1023], and its CPC is [+Inf]: the product by 100 that
    [round2] takes overflows. *)
Lemma ratio_overflows_to_infinity :
  validCampaign hugeCampaign = true /\
  (Campaign.Clicks hugeCampaign =? 0)%float = false /\
  Exact.valueOf (Campaign.Spend hugeCampaign / Campaign.Clicks hugeCampaign) =
    Some (QArith_base.inject_Z (2 ^ 1023)) /\
  Metrics.CPC (computeMetrics hugeCampaign) = infinity /\
  Metrics.CPC (computeMetrics hugeCampaign) <>
    (Campaign.Spend hugeCampaign / Campaign.Clicks hugeCampaign)%float.
Proof.
  split; [reflexivity|]. split; [reflexivity|]. split; [reflexivity|].
  split; [reflexivity|]. intros H. vm_compute in H. discriminate H.
Qed.

(** C9, as amended.  Every ratio of every record is rounded to two
    decimals by [round2] in binary64: it is [n / 100] where [n] is the
    integer nearest to the binary64 product of the formula's quotient by
    100, a tie going away from zero (and it is that product when the
    product is not finite).  On the sample row the six ratios are 4.00,
    6.67, 0.39, 5.78, 4.97 and 28.75; [0.125] and [0.625], whose
    hundredfolds [12.5] and [62.5] are exact ties, go to [0.13] and
    [0.63], and [-0.125] to [-0.13]. *)
Theorem computeMetrics_rounds_to_cents :
  (forall c : Campaign,
     let m := computeMetrics c in
     roundedToCents (safeDiv (Campaign.Clicks c) (Campaign.Impressions c) * 100)
                    (Metrics.CTR m) /\
     roundedToCents (safeDiv (Campaign.Conversions c) (Campaign.Clicks c) * 100)
                    (Metrics.CVR m) /\
     roundedToCents (safeDiv (Campaign.Spend c) (Campaign.Clicks c)) (Metrics.CPC m) /\
     roundedToCents (safeDiv (Campaign.Spend c) (Campaign.Conversions c)) (Metrics.CPA m) /\
     roundedToCents (safeDiv (Campaign.Revenue c) (Campaign.Spend c)) (Metrics.ROAS m) /\
     roundedToCents (safeDiv (Campaign.Revenue c) (Campaign.Conversions c))
                    (Metrics.RevPerConv m)) /\
  computeMetrics googleSearchBrand =
    {| Metrics.Name := "Google Search - Brand";
       Metrics.CTR := 4.00; Metrics.CVR := 6.67; Metrics.CPC := 0.39;
       Metrics.CPA := 5.78; Metrics.ROAS := 4.97; Metrics.RevPerConv := 28.75;
       Metrics.Spend := 1850; Metrics.Revenue := 9200;
       Metrics.Impressions := 120000; Metrics.Clicks := 4800;
       Metrics.Conversions := 320 |} /\
  round2 0.125 = 0.13%float /\ round2 0.625 = 0.63%float /\
  round2 (-0.125) = (-0.13)%float /\
  (safeDiv 1850 4800 = 0.38541666666666669 /\ safeDiv 1850 320 = 5.78125 /\
   safeDiv 9200 1850 = 4.9729729729729728)%float.
Proof.
  split; [|split].
  - intros c. cbv zeta. unfold computeMetrics.
    cbn [Metrics.CTR Metrics.CVR Metrics.CPC Metrics.CPA Metrics.ROAS Metrics.RevPerConv].
    repeat split; apply round2_roundedToCents.
  - unfold computeMetrics, googleSearchBrand; simpl.
    f_equal; vm_compute; reflexivity.
  - repeat split; vm_compute; reflexivity.
Qed.

(** C9 as stated fails: a ratio is not always its quotient rounded to two
    decimals.  The quotient of [halfCentCampaign]'s ROAS is strictly below
    2.675, so that its rounding to two decimals is 2.67; its product by
    100 rounds to the tie 267.5, and the ROAS is 2.68.  The quotient of
    [wholeNumberCampaign]'s ROAS is the whole number 500000000000001,
    which has no decimals to round and is a binary64; the ROAS is
    500000000000000.9375, which Go prints as 500000000000000.94. *)
Lemma round2_is_not_the_exact_rounding :
  (validCampaign halfCentCampaign = true /\
   exists q,
     Exact.valueOf (Campaign.Revenue halfCentCampaign / Campaign.Spend halfCentCampaign) =
       Some q /\
     QArith_base.Qlt q (QArith_base.Qmake 2675 1000) /\
     Exact.hundredths q = 267%Z /\
     Metrics.ROAS (computeMetrics halfCentCampaign) = 2.68%float /\
     Metrics.ROAS (computeMetrics halfCentCampaign) <> 2.67%float) /\
  (validCampaign wholeNumberCampaign = true /\
   exists q,
     Exact.valueOf (Campaign.Revenue wholeNumberCampaign / Campaign.Spend wholeNumberCampaign) =
       Some q /\
     QArith_base.Qeq q (QArith_base.inject_Z 500000000000001) /\
     QArith_base.Qeq (QArith_base.inject_Z (Exact.hundredths q))
                     (QArith_base.Qmult q (QArith_base.Qmake 100 1)) /\
     Metrics.ROAS (computeMetrics wholeNumberCampaign) = 500000000000000.9375%float /\
     Metrics.ROAS (computeMetrics wholeNumberCampaign) <> 500000000000001%float).
Proof.
  split; (split; [reflexivity|]).
  - eexists. split; [vm_compute; reflexivity|].
    split; [reflexivity|]. split; [reflexivity|]. split; [vm_compute; reflexivity|].
    intros H. vm_compute in H. discriminate H.
  - eexists. split; [vm_compute; reflexivity|].
    split; [reflexivity|]. split; [reflexivity|]. split; [vm_compute; reflexivity|].
    intros H. vm_compute in H. discriminate H.
Qed.

(* ================================================================== *)
(** ** The aggregator *)

(** The loop of [totalMetrics] keeps five running sums, one per measure,
    and leaves the label alone. *)
Lemma fold_addMeasures (all : list Metrics) : forall t : Campaign,
  fold_left addMeasures all t =
  {| Campaign.Name := Campaign.Name t;
     Campaign.Impressions :=
       fold_left (fun acc m => (acc + Metrics.Impressions m)%float) all (Campaign.Impressions t);
     Campaign.Clicks :=
       fold_left (fun acc m => (acc + Metrics.Clicks m)%float) all (Campaign.Clicks t);
     Campaign.Conversions :=
       fold_left (fun acc m => (acc + Metrics.Conversions m)%float) all (Campaign.Conversions t);
     Campaign.Spend :=
       fold_left (fun acc m => (acc + Metrics.Spend m)%float) all (Campaign.Spend t);
     Campaign.Revenue :=
       fold_left (fun acc m => (acc + Metrics.Revenue m)%float) all (Campaign.Revenue t) |}.
Proof.
  induction all as [|m all IH]; intros t.
  - destruct t; reflexivity.
  - cbn [fold_left]. rewrite IH. unfold addMeasures; reflexivity.
Qed.

(** The aggregate of no record: every measure and every ratio is [0]. *)
Example totalMetrics_empty :
  totalMetrics [] =
  {| Metrics.Name := "TOTAL"; Metrics.CTR := 0; Metrics.CVR := 0; Metrics.CPC := 0;
     Metrics.CPA := 0; Metrics.ROAS := 0; Metrics.RevPerConv := 0;
     Metrics.Spend := 0; Metrics.Revenue := 0; Metrics.Impressions := 0;
     Metrics.Clicks := 0; Metrics.Conversions := 0 |}.
Proof. reflexivity. Qed.

(** C2.  The aggregate of any collection is [computeMetrics] of the
    record labelled "TOTAL" whose measures are the sums of the carried-
    forward measures; its ratios are recomputed from the sums.  For the
    two campaigns of different size the blended ROAS is 1050/1010 rounded,
    1.04, and not the average 3.00 of the per-row ratios 1.00 and 5.00. *)
Theorem totalMetrics_blended :
  (forall all : list Metrics,
     totalMetrics all =
     computeMetrics
       {| Campaign.Name := "TOTAL";
          Campaign.Impressions := sumOf Metrics.Impressions all;
          Campaign.Clicks := sumOf Metrics.Clicks all;
          Campaign.Conversions := sumOf Metrics.Conversions all;
          Campaign.Spend := sumOf Metrics.Spend all;
          Campaign.Revenue := sumOf Metrics.Revenue all |}) /\
  (let all := map computeMetrics [bigCampaign; smallCampaign] in
   map Metrics.ROAS all = [1.00; 5.00]%float /\
   Metrics.ROAS (totalMetrics all) = round2 (1050 / 1010) /\
   Metrics.ROAS (totalMetrics all) = 1.04%float /\
   average (map Metrics.ROAS all) = 3.00%float).
Proof.
  split.
  - intros all. unfold totalMetrics. rewrite fold_addMeasures. reflexivity.
  - cbv zeta. repeat split; vm_compute; reflexivity.
Qed.

(* ================================================================== *)
(** ** Sorting: the contract of sort.Slice and insertion sort *)

Section SortFacts.
Context {A : Type}.
Variable less : A -> A -> bool.

Lemma Ordering_incl (l l' : list A) :
  incl l' l -> sort.Ordering less l -> sort.Ordering less l'.
Proof.
  intros Hincl [Hirr Htr Hinc]. split.
  - intros x Hx. apply Hirr, Hincl, Hx.
  - intros x y z Hx Hy Hz. apply Htr; apply Hincl; assumption.
  - intros x y z Hx Hy Hz. apply Hinc; apply Hincl; assumption.
Qed.

Lemma Ordering_asym (l : list A) (x y : A) :
  sort.Ordering less l -> In x l -> In y l ->
  less x y = true -> less y x = false.
Proof.
  intros [Hirr Htr _] Hx Hy Hxy.
  destruct (less y x) eqn:Hyx; [|reflexivity].
  rewrite <- (Hirr x Hx). symmetry. apply (Htr x y x); assumption.
Qed.

Lemma sink_Permutation (x : A) (rp : list A) :
  Permutation (x :: rp) (sort.sink less x rp).
Proof.
  induction rp as [|p ps IH]; simpl.
  - apply Permutation_refl.
  - destruct (less x p).
    + eapply perm_trans; [apply perm_swap|]. apply perm_skip, IH.
    + apply Permutation_refl.
Qed.

Lemma sink_RevSorted (x : A) (rp : list A) :
  sort.Ordering less (x :: rp) -> sort.RevSorted less rp -> sort.RevSorted less (sort.sink less x rp).
Proof.
  unfold sort.RevSorted. intros Hord Hs.
  induction Hs as [|p ps Hs IH Hp]; simpl.
  - constructor; constructor.
  - destruct (less x p) eqn:Hxp.
    + constructor.
      * apply IH. eapply Ordering_incl; [|exact Hord].
        intros a [->|Ha]; [left; reflexivity|right; right; exact Ha].
      * apply (Permutation_Forall (sink_Permutation x ps)).
        constructor; [|exact Hp].
        apply (Ordering_asym (x :: p :: ps)); simpl; auto.
    + constructor; [constructor; assumption|].
      constructor; [exact Hxp|].
      rewrite Forall_forall in Hp |- *. intros q Hq.
      apply (sort.less_incomparable_trans _ _ Hord x p q); simpl; auto.
Qed.

Lemma fold_sink_spec (l : list A) : forall rp : list A,
  sort.Ordering less (l ++ rp) -> sort.RevSorted less rp ->
  Permutation (l ++ rp) (fold_left (fun rp x => sort.sink less x rp) l rp) /\
  sort.RevSorted less (fold_left (fun rp x => sort.sink less x rp) l rp).
Proof.
  induction l as [|x l IH]; intros rp Hord Hs; simpl.
  - split; [apply Permutation_refl|exact Hs].
  - assert (Hperm : Permutation (x :: l ++ rp) (l ++ sort.sink less x rp)).
    { eapply perm_trans; [apply Permutation_middle|].
      apply Permutation_app_head, sink_Permutation. }
    destruct (IH (sort.sink less x rp)) as [IH1 IH2].
    + eapply Ordering_incl; [|exact Hord].
      intros a Ha. apply (Permutation_in a (Permutation_sym Hperm)) in Ha. exact Ha.
    + apply sink_RevSorted; [|exact Hs].
      eapply Ordering_incl; [|exact Hord].
      intros a [->|Ha]; [left; reflexivity|right; apply in_or_app; right; exact Ha].
    + split; [|exact IH2]. eapply perm_trans; [exact Hperm|exact IH1].
Qed.

Lemma StronglySorted_snoc (R : A -> A -> Prop) (l : list A) (x : A) :
  StronglySorted R l -> Forall (fun a => R a x) l -> StronglySorted R (l ++ [x]).
Proof.
  intros Hs. induction Hs as [|a l Hs IH Ha]; intros Hx; simpl.
  - constructor; constructor.
  - constructor.
    + apply IH. exact (Forall_inv_tail Hx).
    + apply Forall_app. split; [exact Ha|].
      constructor; [exact (Forall_inv Hx)|constructor].
Qed.

Lemma RevSorted_rev (rp : list A) :
  sort.RevSorted less rp -> sort.IsSorted less (rev rp).
Proof.
  unfold sort.RevSorted, sort.IsSorted. intros Hs.
  induction Hs as [|p ps Hs IH Hp]; simpl; [constructor|].
  apply StronglySorted_snoc; [exact IH|].
  rewrite Forall_forall in Hp |- *. intros a Ha.
  apply Hp, in_rev, Ha.
Qed.

(** Insertion sort keeps the promise of sort.Slice. *)
Lemma insertionSort_func_spec (l : list A) :
  sort.Ordering less l ->
  Permutation l (sort.insertionSort_func l less) /\
  sort.IsSorted less (sort.insertionSort_func l less).
Proof.
  intros Hord. unfold sort.insertionSort_func.
  destruct (fold_sink_spec l []) as [Hperm Hs].
  - rewrite app_nil_r. exact Hord.
  - constructor.
  - rewrite app_nil_r in Hperm. split.
    + eapply perm_trans; [exact Hperm|apply Permutation_rev].
    + apply RevSorted_rev, Hs.
Qed.

(** Insertion sort is stable: an element sinks only past elements it is
    less than, and those do not tie with what it ties with. *)
Lemma filter_sink (y x : A) (rp : list A) :
  sort.Ordering less (y :: x :: rp) ->
  filter (sort.tie less y) (sort.sink less x rp) = filter (sort.tie less y) (x :: rp).
Proof.
  intros Hord. induction rp as [|p ps IH]; [reflexivity|].
  cbn [sort.sink]. destruct (less x p) eqn:Hxp; [|reflexivity].
  cbn [filter]. rewrite IH.
  2:{ eapply Ordering_incl; [|exact Hord].
      intros a [<-|[<-|Ha]]; simpl; auto. }
  cbn [filter].
  destruct (sort.tie less y x) eqn:Tx; [|reflexivity].
  destruct (sort.tie less y p) eqn:Tp; [|reflexivity].
  exfalso. unfold sort.tie in Tx, Tp.
  apply andb_true_iff in Tx as [_ Tx]. apply andb_true_iff in Tp as [Tp _].
  apply negb_true_iff in Tx, Tp.
  rewrite (sort.less_incomparable_trans _ _ Hord x y p) in Hxp;
    simpl; auto; discriminate.
Qed.

Lemma filter_fold_sink (y : A) (l : list A) : forall rp : list A,
  sort.Ordering less (y :: l ++ rp) ->
  filter (sort.tie less y) (fold_left (fun rp x => sort.sink less x rp) l rp) =
  (rev (filter (sort.tie less y) l) ++ filter (sort.tie less y) rp)%list.
Proof.
  induction l as [|x l IH]; intros rp Hord; [reflexivity|].
  cbn [fold_left]. rewrite IH.
  - rewrite filter_sink.
    + cbn [filter]. destruct (sort.tie less y x); [|reflexivity].
      cbn [rev]. rewrite <- app_assoc. reflexivity.
    + eapply Ordering_incl; [|exact Hord].
      intros a [<-|[<-|Ha]]; simpl; auto. right. right. apply in_or_app. auto.
  - eapply Ordering_incl; [|exact Hord].
    intros a [<-|Ha]; [left; reflexivity|]. right.
    apply in_app_or in Ha as [Ha|Ha].
    + right. apply in_or_app. auto.
    + apply (Permutation_in a (Permutation_sym (sink_Permutation x rp))) in Ha.
      destruct Ha as [<-|Ha]; [left; reflexivity|right; apply in_or_app; auto].
Qed.

Lemma insertionSort_func_stable (l : list A) (y : A) :
  sort.Ordering less (y :: l) ->
  filter (sort.tie less y) (sort.insertionSort_func l less) = filter (sort.tie less y) l.
Proof.
  intros Hord. unfold sort.insertionSort_func.
  rewrite filter_rev, filter_fold_sink by (rewrite app_nil_r; exact Hord).
  cbn [filter]. rewrite app_nil_r. apply rev_involutive.
Qed.

End SortFacts.

Lemma insertionSort_func_Sorts (A : Type) : sort.Sorts (@sort.insertionSort_func A).
Proof. intros l less. apply insertionSort_func_spec. Qed.

Lemma reversingSort_Sorts (A : Type) : sort.Sorts (@sort.reversingSort A).
Proof.
  intros l less Hord. unfold sort.reversingSort.
  destruct (insertionSort_func_spec less (rev l)) as [Hperm Hs].
  - eapply Ordering_incl; [|exact Hord]. intros a Ha. apply in_rev, Ha.
  - split; [|exact Hs]. eapply perm_trans; [apply Permutation_rev|exact Hperm].
Qed.

Lemma Permutation_filter (A : Type) (f : A -> bool) (l l' : list A) :
  Permutation l l' -> Permutation (filter f l) (filter f l').
Proof.
  intros H. induction H as [|x l l' H IH|x y l|l l' l'' H1 IH1 H2 IH2]; simpl.
  - constructor.
  - destruct (f x); [apply perm_skip|]; exact IH.
  - destruct (f x), (f y); try apply Permutation_refl. apply perm_swap.
  - eapply perm_trans; eassumption.
Qed.

(* ================================================================== *)
(** ** The filter *)

Lemma fold_keepIfROAS (minROAS : float) (campaigns : list Campaign) :
  forall all : list Metrics,
  fold_left (keepIfROAS minROAS) campaigns all =
  (all ++ filter (fun m => (Metrics.ROAS m >=? minROAS)%float)
                 (map computeMetrics campaigns))%list.
Proof.
  induction campaigns as [|c cs IH]; intros all.
  - simpl. symmetry. apply app_nil_r.
  - cbn [fold_left map filter]. rewrite IH. unfold keepIfROAS.
    destruct (Metrics.ROAS (computeMetrics c) >=? minROAS)%float.
    + rewrite <- app_assoc. reflexivity.
    + reflexivity.
Qed.

Lemma computeAll_filter (minROAS : float) (campaigns : list Campaign) :
  computeAll minROAS campaigns =
  filter (fun m => (Metrics.ROAS m >=? minROAS)%float) (map computeMetrics campaigns).
Proof. unfold computeAll. apply fold_keepIfROAS. Qed.

Lemma computeAll_comparable (minROAS : float) (campaigns : list Campaign) :
  forallb validCampaign campaigns = true ->
  Forall comparable (computeAll minROAS campaigns).
Proof.
  intros Hvalid. rewrite computeAll_filter.
  apply Forall_forall. intros m Hm.
  apply filter_In in Hm as [Hm _]. apply in_map_iff in Hm as (c & <- & Hc).
  apply computeMetrics_comparable.
  rewrite forallb_forall in Hvalid. apply Hvalid, Hc.
Qed.

(** C5.  The loop keeps exactly the records with [ROAS >= minROAS], in
    their input order: its result is the [filter] of the computed
    records.  Equality passes (the sample row, whose ROAS is 4.97, is
    kept at the threshold 4.97 and dropped at 4.98), and at the default
    threshold 0 every record computed from a valid campaign is kept. *)
Theorem computeAll_keeps_roas_at_least_min :
  (forall (minROAS : float) (campaigns : list Campaign),
     computeAll minROAS campaigns =
     filter (fun m => (Metrics.ROAS m >=? minROAS)%float) (map computeMetrics campaigns)) /\
  (computeAll 4.97 [googleSearchBrand] = [computeMetrics googleSearchBrand] /\
   computeAll 4.98 [googleSearchBrand] = []) /\
  (minROAS defaultFlags = 0%float /\
   forall campaigns : list Campaign,
     forallb validCampaign campaigns = true ->
     computeAll (minROAS defaultFlags) campaigns = map computeMetrics campaigns).
Proof.
  split; [exact computeAll_filter|]. split; [|split].
  - split; vm_compute; reflexivity.
  - reflexivity.
  - intros campaigns Hvalid. rewrite computeAll_filter.
    apply forallb_filter_id. rewrite forallb_forall. intros m Hm.
    apply in_map_iff in Hm as (c & <- & Hc).
    rewrite forallb_forall in Hvalid.
    apply (computeMetrics_comparable c (Hvalid c Hc)).
Qed.

(** With the default threshold the three sample campaigns, one of them
    without impressions, are all kept. *)
Lemma computeAll_keeps_roas_at_least_min_witness :
  computeAll (minROAS defaultFlags) [googleSearchBrand; emailNewsletter; tieFirst] =
  map computeMetrics [googleSearchBrand; emailNewsletter; tieFirst].
Proof.
  destruct computeAll_keeps_roas_at_least_min as (_ & _ & _ & Hall).
  apply Hall. reflexivity.
Defined.

(* ================================================================== *)
(** ** The sort *)

(** The [switch] of the [less] function reads the field of the selected
    key, ascending for [cpa] and descending for the others. *)
Lemma less_precedes (sortBy : string) (x y : Metrics) :
  less sortBy x y = precedes (keyOf sortBy) x y.
Proof.
  unfold less, keyOf. cbv zeta.
  destruct (strings.ToLower sortBy =? "roas") eqn:E.
  - apply String.eqb_eq in E. rewrite E. reflexivity.
  - destruct (strings.ToLower sortBy =? "ctr"); [reflexivity|].
    destruct (strings.ToLower sortBy =? "cvr"); [reflexivity|].
    destruct (strings.ToLower sortBy =? "cpa"); [reflexivity|].
    destruct (strings.ToLower sortBy =? "spend"); [reflexivity|].
    destruct (strings.ToLower sortBy =? "revenue"); reflexivity.
Qed.

Lemma comparable_keyField (k : SortKey) (m : Metrics) :
  comparable m -> (keyField k m >=? 0)%float = true.
Proof.
  intros (H1 & H2 & H3 & H4 & H5 & H6). destruct k; assumption.
Qed.

(** On records without NaN in their key fields, [precedes] is the kind
    of ordering sort.Slice asks for. *)
Lemma precedes_Ordering (k : SortKey) (l : list Metrics) :
  Forall comparable l -> sort.Ordering (precedes k) l.
Proof.
  intros Hl. rewrite Forall_forall in Hl.
  assert (Hge : forall m, In m l -> (keyField k m >=? 0)%float = true)
    by (intros m Hm; apply comparable_keyField, Hl, Hm).
  split.
  - intros x _. destruct k; apply F64Facts.ltb_irrefl.
  - intros x y z _ _ _.
    destruct k; simpl; intros H1 H2;
      first [ exact (F64Facts.ltb_trans _ _ _ H1 H2)
            | exact (F64Facts.ltb_trans _ _ _ H2 H1) ].
  - intros x y z _ Hy _. specialize (Hge y Hy).
    destruct k; simpl in *; intros H1 H2;
      first [ exact (F64Facts.ltb_incomparable_trans _ _ _ Hge H1 H2)
            | exact (F64Facts.ltb_incomparable_trans _ _ _ Hge H2 H1) ].
Qed.

Lemma less_Ordering (sortBy : string) (l : list Metrics) :
  Forall comparable l -> sort.Ordering (less sortBy) l.
Proof.
  intros Hl. destruct (precedes_Ordering (keyOf sortBy) l Hl) as [H1 H2 H3].
  split.
  - intros x Hx. rewrite less_precedes. apply H1, Hx.
  - intros x y z Hx Hy Hz. rewrite !less_precedes. apply H2; assumption.
  - intros x y z Hx Hy Hz. rewrite !less_precedes. apply H3; assumption.
Qed.

(** Where [y] need not come before [x], [x] and [y] are in order. *)
Lemma not_precedes_inOrder (k : SortKey) (x y : Metrics) :
  comparable x -> comparable y -> precedes k y x = false -> inOrder k x y.
Proof.
  intros Hx Hy.
  pose proof (comparable_keyField k x Hx) as Gx.
  pose proof (comparable_keyField k y Hy) as Gy.
  destruct k; simpl in *; intros H;
    first [ exact (F64Facts.ltb_false_leb _ _ Gx Gy H)
          | exact (F64Facts.ltb_false_leb _ _ Gy Gx H) ].
Qed.

Lemma IsSorted_inOrder (sortBy : string) (l : list Metrics) :
  Forall comparable l -> sort.IsSorted (less sortBy) l ->
  StronglySorted (inOrder (keyOf sortBy)) l.
Proof.
  unfold sort.IsSorted. intros Hl Hs.
  induction Hs as [|x l Hs IH Hx]; [constructor|].
  pose proof (Forall_inv Hl) as Cx. pose proof (Forall_inv_tail Hl) as Cl.
  constructor; [apply IH, Cl|].
  rewrite Forall_forall in *. intros y Hy.
  apply not_precedes_inOrder; auto.
  rewrite <- less_precedes. apply Hx, Hy.
Qed.

Section Pipeline.
Variable sort_Slice : list Metrics -> (Metrics -> Metrics -> bool) -> list Metrics.
Hypothesis sort_Slice_spec : sort.Sorts sort_Slice.

Lemma pipeline_Permutation (fl : Flags) (campaigns : list Campaign) :
  forallb validCampaign campaigns = true ->
  Permutation (computeAll (minROAS fl) campaigns) (pipeline sort_Slice fl campaigns).
Proof.
  intros Hvalid. unfold pipeline.
  apply sort_Slice_spec, less_Ordering, computeAll_comparable, Hvalid.
Qed.

Lemma pipeline_inOrder (fl : Flags) (campaigns : list Campaign) :
  forallb validCampaign campaigns = true ->
  StronglySorted (inOrder (keyOf (sortBy fl))) (pipeline sort_Slice fl campaigns).
Proof.
  intros Hvalid.
  pose proof (computeAll_comparable (minROAS fl) campaigns Hvalid) as Hc.
  apply IsSorted_inOrder.
  - apply (Permutation_Forall (pipeline_Permutation fl campaigns Hvalid)), Hc.
  - unfold pipeline. apply sort_Slice_spec, less_Ordering, Hc.
Qed.

End Pipeline.

Lemma ToLower_ASCII (s : string) : isASCII s = true -> strings.ToLower s = lowerASCII s.
Proof.
  induction s as [|c r IH]; [reflexivity|].
  cbn [isASCII lowerASCII]. rewrite andb_true_iff. intros [Hc Hr].
  rewrite <- (IH Hr).
  destruct c as [b0 b1 b2 b3 b4 b5 b6 [|]].
  - destruct b0, b1, b2, b3, b4, b5, b6; discriminate Hc.
  - destruct b0, b1, b2, b3, b4, b5, b6; reflexivity.
Qed.

Lemma keyOf_ignores_case (s t : string) : sameIgnoringCase s t -> keyOf s = keyOf t.
Proof.
  intros (Hs & Ht & E). unfold keyOf.
  rewrite (ToLower_ASCII s Hs), (ToLower_ASCII t Ht), E. reflexivity.
Qed.

(** C6.  The [less] function of the sort reads the key selected by the
    [--sort] text: the text is matched without regard to case, [cpa]
    compares CPA ascending, the five other names compare their field
    descending, and any other text (the empty one too) selects [roas].
    Whatever way sort.Slice sorts, the sorted sequence is a permutation of
    the filtered one in which each record is in order with all the
    records after it. *)
Theorem sort_key_dispatch
  (sort_Slice : list Metrics -> (Metrics -> Metrics -> bool) -> list Metrics)
  (fl : Flags) (campaigns : list Campaign) :
  sort.Sorts sort_Slice ->
  forallb validCampaign campaigns = true ->
  (forall x y, less (sortBy fl) x y = precedes (keyOf (sortBy fl)) x y) /\
  (forall t, sameIgnoringCase (sortBy fl) t -> keyOf (sortBy fl) = keyOf t) /\
  (keyOf "roas" = ByROAS /\ keyOf "ctr" = ByCTR /\ keyOf "cvr" = ByCVR /\
   keyOf "cpa" = ByCPA /\ keyOf "spend" = BySpend /\ keyOf "revenue" = ByRevenue /\
   keyOf "CPA" = ByCPA /\ keyOf "Revenue" = ByRevenue /\
   keyOf "" = ByROAS /\ keyOf "clicks" = ByROAS /\
   keyOf (sortBy defaultFlags) = ByROAS) /\
  (keyOf (sortBy fl) <> ByROAS ->
   In (strings.ToLower (sortBy fl)) ["ctr"; "cvr"; "cpa"; "spend"; "revenue"]) /\
  Permutation (computeAll (minROAS fl) campaigns) (pipeline sort_Slice fl campaigns) /\
  StronglySorted (inOrder (keyOf (sortBy fl))) (pipeline sort_Slice fl campaigns).
Proof.
  intros Hspec Hvalid. repeat split.
  - intros x y. apply less_precedes.
  - intros t. apply keyOf_ignores_case.
  - unfold keyOf. cbv zeta.
    destruct (strings.ToLower (sortBy fl) =? "roas"); [congruence|].
    destruct (strings.ToLower (sortBy fl) =? "ctr") eqn:E1;
      [apply String.eqb_eq in E1; rewrite E1; simpl; tauto|].
    destruct (strings.ToLower (sortBy fl) =? "cvr") eqn:E2;
      [apply String.eqb_eq in E2; rewrite E2; simpl; tauto|].
    destruct (strings.ToLower (sortBy fl) =? "cpa") eqn:E3;
      [apply String.eqb_eq in E3; rewrite E3; simpl; tauto|].
    destruct (strings.ToLower (sortBy fl) =? "spend") eqn:E4;
      [apply String.eqb_eq in E4; rewrite E4; simpl; tauto|].
    destruct (strings.ToLower (sortBy fl) =? "revenue") eqn:E5;
      [apply String.eqb_eq in E5; rewrite E5; simpl; tauto|].
    congruence.
  - apply pipeline_Permutation; assumption.
  - apply pipeline_inOrder; assumption.
Qed.

(** Sorted by "CPA" with insertion sort, the three sample campaigns come
    out by ascending CPA: 0.47, 5.78, 20. *)
Lemma sort_key_dispatch_witness :
  StronglySorted (inOrder ByCPA)
    (pipeline sort.insertionSort_func (flagsSortedBy "CPA")
              [googleSearchBrand; tieFirst; emailNewsletter]) /\
  map Metrics.CPA
    (pipeline sort.insertionSort_func (flagsSortedBy "CPA")
              [googleSearchBrand; tieFirst; emailNewsletter]) = [0.47; 5.78; 20]%float.
Proof.
  split; [|vm_compute; reflexivity].
  exact (proj2 (proj2 (proj2 (proj2 (proj2
    (sort_key_dispatch sort.insertionSort_func (flagsSortedBy "CPA")
       [googleSearchBrand; tieFirst; emailNewsletter]
       (insertionSort_func_Sorts Metrics) eq_refl)))))).
Defined.

(** C3, as the code has it.  sort.Slice promises a sorted permutation and
    no more: after the sort the records that tie with a given record are
    the same records, each as many times as before, in some order. *)
Theorem sort_keeps_tied_records
  (sort_Slice : list Metrics -> (Metrics -> Metrics -> bool) -> list Metrics)
  (fl : Flags) (campaigns : list Campaign) :
  sort.Sorts sort_Slice ->
  forallb validCampaign campaigns = true ->
  let all := computeAll (minROAS fl) campaigns in
  Permutation all (pipeline sort_Slice fl campaigns) /\
  forall x, Permutation (filter (tied (sortBy fl) x) all)
                        (filter (tied (sortBy fl) x) (pipeline sort_Slice fl campaigns)).
Proof.
  intros Hspec Hvalid all.
  pose proof (pipeline_Permutation sort_Slice Hspec fl campaigns Hvalid) as Hperm.
  split; [exact Hperm|].
  intros x. apply Permutation_filter, Hperm.
Qed.

(** With insertion sort the two campaigns that tie on ROAS are both still
    there after the sort. *)
Lemma sort_keeps_tied_records_witness :
  Permutation
    (filter (tied "roas" (computeMetrics tieFirst))
            (computeAll 0 [tieFirst; googleSearchBrand; tieSecond]))
    (filter (tied "roas" (computeMetrics tieFirst))
            (pipeline sort.insertionSort_func (flagsSortedBy "roas")
                      [tieFirst; googleSearchBrand; tieSecond])).
Proof.
  exact (proj2 (sort_keeps_tied_records sort.insertionSort_func (flagsSortedBy "roas")
                  [tieFirst; googleSearchBrand; tieSecond]
                  (insertionSort_func_Sorts Metrics) eq_refl)
               (computeMetrics tieFirst)).
Defined.

(** sort.Slice on at most twelve elements is insertion sort. *)
Lemma Slice_short (A : Type) (less : A -> A -> bool) (x : list A) :
  (List.length x <= 12)%nat -> sort.Slice less x = Some (sort.insertionSort_func x less).
Proof.
  intros Hlen. unfold sort.Slice. cbv zeta. cbn [sort.pdqsort_func].
  rewrite Nat.sub_0_r.
  destruct (Nat.leb_spec (List.length x) 12) as [_|Hgt]; [|lia].
  unfold sort.insertionSortRange.
  rewrite Nat.sub_0_r, firstn_O, skipn_O, firstn_all, skipn_all, app_nil_r.
  reflexivity.
Qed.

(** So while at most twelve records are sorted, the sort of Go 1.19 and
    later does keep the records that tie in their input order. *)
Lemma Slice_short_stable (sortBy : string) (all : list Metrics) :
  Forall comparable all -> (List.length all <= 12)%nat ->
  exists sorted,
    sort.Slice (less sortBy) all = Some sorted /\ Stable sortBy all sorted.
Proof.
  intros Hcmp Hlen. exists (sort.insertionSort_func all (less sortBy)).
  split; [apply Slice_short, Hlen|].
  intros x Hx. unfold tied. apply insertionSort_func_stable.
  apply less_Ordering. constructor; [|exact Hcmp].
  rewrite Forall_forall in Hcmp. apply Hcmp, Hx.
Qed.

(** C3 as stated fails.  On the thirteen campaigns, sorted by ROAS, the
    sort of Go 1.19 and later moves the record with the largest ROAS to
    the front and leaves the twelve records that tie in another order
    than they came in: c06 c02 c03 c04 c05 c00 c07 ... c11 c01.  And
    nothing in what sort.Slice promises prevents it: a function that keeps
    the promise may turn two tied records around. *)
Lemma sort_Slice_reorders_ties :
  (let all := computeAll 0 thirteenCampaigns in
   exists sorted,
     sort.Slice (less "roas") all = Some sorted /\
     map Metrics.Name sorted =
       ["c12"; "c06"; "c02"; "c03"; "c04"; "c05"; "c00"; "c07"; "c08"; "c09";
        "c10"; "c11"; "c01"] /\
     map Metrics.ROAS sorted = [5; 1; 1; 1; 1; 1; 1; 1; 1; 1; 1; 1; 1]%float /\
     ~ Stable "roas" all sorted) /\
  (sort.Sorts (@sort.reversingSort Metrics) /\
   let all := computeAll 0 [tieFirst; tieSecond] in
   all = [computeMetrics tieFirst; computeMetrics tieSecond] /\
   sort.reversingSort all (less "roas") = [computeMetrics tieSecond; computeMetrics tieFirst] /\
   ~ Stable "roas" all (sort.reversingSort all (less "roas"))).
Proof.
  split.
  - cbv zeta. eexists. split; [vm_compute; reflexivity|].
    split; [vm_compute; reflexivity|]. split; [vm_compute; reflexivity|].
    intros Hstable.
    specialize (Hstable (computeMetrics (flatCampaign "c00" 100))).
    assert (Hin : In (computeMetrics (flatCampaign "c00" 100)) (computeAll 0 thirteenCampaigns))
      by (vm_compute; left; reflexivity).
    apply Hstable in Hin. vm_compute in Hin. discriminate Hin.
  - split; [apply reversingSort_Sorts|]. cbv zeta.
    split; [vm_compute; reflexivity|]. split; [vm_compute; reflexivity|].
    intros Hstable.
    specialize (Hstable (computeMetrics tieFirst)).
    assert (Hin : In (computeMetrics tieFirst) (computeAll 0 [tieFirst; tieSecond]))
      by (vm_compute; left; reflexivity).
    apply Hstable in Hin. vm_compute in Hin. discriminate Hin.
Qed.

(* ================================================================== *)
(** ** The report: best ROAS and lowest CPA *)

Lemma selections_report (fl : Flags) (all : list Metrics) :
  selections (report fl all) = bestWorst all.
Proof.
  unfold report, selections. cbn [app filter isSelection].
  unfold bestWorst. destruct all as [|first [|second rest]]; reflexivity.
Qed.

Lemma bestWorst_nil_iff (all : list Metrics) :
  bestWorst all = [] <-> (List.length all <= 1)%nat.
Proof.
  destruct all as [|first [|second rest]]; simpl; split; intros H;
    try reflexivity; try lia; discriminate H.
Qed.

Lemma main_output (ParseFloat : string -> option float)
      (sort_Slice : list Metrics -> (Metrics -> Metrics -> bool) -> list Metrics)
      (fsys : string -> fileContents) (fl : Flags) :
  selections (output (main ParseFloat sort_Slice fsys fl)) = [] \/
  exists campaigns,
    loadCSV ParseFloat (fsys (filePath fl)) = Ok campaigns /\
    output (main ParseFloat sort_Slice fsys fl) = report fl (pipeline sort_Slice fl campaigns).
Proof.
  unfold main.
  destruct (filePath fl =? ""); [left; reflexivity|].
  destruct (loadCSV ParseFloat (fsys (filePath fl))) as [campaigns|e|];
    try (left; reflexivity).
  destruct (List.length campaigns =? 0)%nat; [left; reflexivity|].
  right. exists campaigns. split; reflexivity.
Qed.

(** C10.  The two selections are written exactly when the filtered and
    sorted sequence has more than one record: the report of a sequence of
    zero or one records has none, that of a longer one has both, and a run
    that writes a selection is a run whose sequence has several records. *)
Theorem selections_need_several_records
  (ParseFloat : string -> option float)
  (sort_Slice : list Metrics -> (Metrics -> Metrics -> bool) -> list Metrics)
  (fsys : string -> fileContents) (fl : Flags) :
  (forall all : list Metrics,
     (selections (report fl all) = [] <-> (List.length all <= 1)%nat) /\
     (List.length (selections (report fl all)) = 2 <-> (1 < List.length all)%nat)) /\
  (selections (output (main ParseFloat sort_Slice fsys fl)) <> [] ->
   exists campaigns,
     loadCSV ParseFloat (fsys (filePath fl)) = Ok campaigns /\
     output (main ParseFloat sort_Slice fsys fl) = report fl (pipeline sort_Slice fl campaigns) /\
     (1 < List.length (pipeline sort_Slice fl campaigns))%nat).
Proof.
  split.
  - intros all. rewrite selections_report. split; [apply bestWorst_nil_iff|].
    destruct all as [|first [|second rest]]; simpl; split; intros H;
      try reflexivity; try lia; discriminate H.
  - intros Hsel.
    destruct (main_output ParseFloat sort_Slice fsys fl) as [Hnone|(campaigns & Hload & Hout)];
      [contradiction|].
    exists campaigns. split; [exact Hload|]. split; [exact Hout|].
    rewrite Hout, selections_report in Hsel.
    destruct (pipeline sort_Slice fl campaigns) as [|first [|second rest]]; simpl in *;
      try contradiction; lia.
Qed.

(** A file with one campaign gives a report without selections, a file
    with two campaigns a report with both. *)
Lemma selections_need_several_records_witness :
  selections (output (main strconv.ParseDecimal sort.insertionSort_func
                           (fun _ => paidOnly) (flagsSortedBy "roas"))) = [] /\
  selections (output (main strconv.ParseDecimal sort.insertionSort_func
                           (fun _ => organicAndPaid) (flagsSortedBy "roas"))) =
    [BestROAS "Organic Social" 9; LowestCPA "Organic Social" 0].
Proof.
  split; [vm_compute; reflexivity|].
  destruct (proj2 (selections_need_several_records strconv.ParseDecimal
                     sort.insertionSort_func (fun _ => organicAndPaid)
                     (flagsSortedBy "roas"))) as (campaigns & _ & _ & Hlen).
  - vm_compute. discriminate.
  - vm_compute. reflexivity.
Defined.

(** The scan never replaces a [best] whose CPA is [0]: no CPA is below. *)
Lemma lowestCPA_fixed_at_zero (rest : list Metrics) : forall first : Metrics,
  Metrics.CPA first = 0%float -> Forall comparable rest ->
  lowestCPA first rest = first.
Proof.
  unfold lowestCPA.
  induction rest as [|m rest IH]; intros first Hzero Hrest; [reflexivity|].
  cbn [fold_left]. unfold lowerCPA at 2. rewrite Hzero.
  pose proof (Forall_inv Hrest) as (_ & _ & Hcpa & _).
  rewrite (F64Facts.leb_true_ltb_false _ _ Hcpa), andb_false_r.
  apply IH; [exact Hzero|exact (Forall_inv_tail Hrest)].
Qed.

(** X11.  What the scan does achieve: started from a record with
    conversions, it ends on a record with conversions whose CPA is the
    least among the records with conversions. *)
Lemma lowestCPA_least_when_first_converts (rest : list Metrics) :
  forall first : Metrics,
  Forall comparable (first :: rest) ->
  (Metrics.Conversions first >? 0)%float = true ->
  let best := lowestCPA first rest in
  In best (first :: rest) /\
  (Metrics.Conversions best >? 0)%float = true /\
  forall m, In m (first :: rest) -> (Metrics.Conversions m >? 0)%float = true ->
            (Metrics.CPA best <=? Metrics.CPA m)%float = true.
Proof.
  unfold lowestCPA.
  assert (Hgen : forall (best : Metrics) (seen : list Metrics),
    Forall comparable (seen ++ rest) -> In best seen ->
    (Metrics.Conversions best >? 0)%float = true ->
    (forall m, In m seen -> (Metrics.Conversions m >? 0)%float = true ->
               (Metrics.CPA best <=? Metrics.CPA m)%float = true) ->
    let r := fold_left lowerCPA rest best in
    In r (seen ++ rest) /\ (Metrics.Conversions r >? 0)%float = true /\
    forall m, In m (seen ++ rest) -> (Metrics.Conversions m >? 0)%float = true ->
              (Metrics.CPA r <=? Metrics.CPA m)%float = true).
  { induction rest as [|x rest IH]; intros best seen Hcmp Hin Hconv Hleast; cbn [fold_left].
    - rewrite app_nil_r. auto.
    - assert (Hx : comparable x).
      { rewrite Forall_forall in Hcmp. apply Hcmp, in_or_app. right. left. reflexivity. }
      assert (Hb : comparable best).
      { rewrite Forall_forall in Hcmp. apply Hcmp, in_or_app. left. exact Hin. }
      destruct Hx as (_ & _ & Hx & _). destruct Hb as (_ & _ & Hb & _).
      replace (seen ++ x :: rest)%list with ((seen ++ [x]) ++ rest)%list in *
        by (rewrite <- app_assoc; reflexivity).
      apply IH; try assumption.
      + unfold lowerCPA.
        destruct ((Metrics.Conversions x >? 0)%float && (Metrics.CPA x <? Metrics.CPA best)%float);
          apply in_or_app; [right; left; reflexivity|left; exact Hin].
      + unfold lowerCPA.
        destruct (Metrics.Conversions x >? 0)%float eqn:E; [|exact Hconv].
        destruct (Metrics.CPA x <? Metrics.CPA best)%float; [exact E|exact Hconv].
      + intros m Hm Hmconv. unfold lowerCPA.
        destruct (Metrics.Conversions x >? 0)%float eqn:E; cbn [andb].
        * destruct (Metrics.CPA x <? Metrics.CPA best)%float eqn:L.
          -- apply in_app_or in Hm as [Hm|[<-|[]]].
             ++ exact (F64Facts.ltb_leb_trans _ _ _ L (Hleast m Hm Hmconv)).
             ++ apply F64Facts.leb_refl, Hx.
          -- apply in_app_or in Hm as [Hm|[<-|[]]]; [apply Hleast; assumption|].
             apply F64Facts.ltb_false_leb; assumption.
        * apply in_app_or in Hm as [Hm|[<-|[]]]; [apply Hleast; assumption|].
          rewrite E in Hmconv. discriminate Hmconv. }
  intros first Hcmp Hconv.
  apply (Hgen first [first]); [exact Hcmp|left; reflexivity|exact Hconv|].
  intros m [<-|[]] _. apply F64Facts.leb_refl.
  destruct (Forall_inv Hcmp) as (_ & _ & H & _). exact H.
Qed.

(** C4 fails on the code.  The scan starts from [all[0]] whatever its
    conversions: when the first record of the sorted sequence comes from a
    campaign without conversions, its CPA is the forced 0 and it is the
    record selected as "lowest CPA", whatever follows. *)
Theorem lowestCPA_selects_first_without_conversions
  (c : Campaign) (cs : list Campaign) :
  validCampaign c = true -> forallb validCampaign cs = true ->
  (Campaign.Conversions c =? 0)%float = true ->
  Metrics.CPA (computeMetrics c) = 0%float /\
  lowestCPA (computeMetrics c) (map computeMetrics cs) = computeMetrics c.
Proof.
  intros Hc Hcs Hzero.
  assert (Hcpa : Metrics.CPA (computeMetrics c) = 0%float).
  { unfold computeMetrics; simpl. rewrite (safe_zero _ _ Hzero). reflexivity. }
  split; [exact Hcpa|].
  apply lowestCPA_fixed_at_zero; [exact Hcpa|].
  apply Forall_forall. intros m Hm. apply in_map_iff in Hm as (c' & <- & Hc').
  apply computeMetrics_comparable.
  rewrite forallb_forall in Hcs. apply Hcs, Hc'.
Qed.

(** The file of two campaigns, with the default sort: "Organic Social",
    which has no conversions, is reported as the lowest CPA, at $0.00;
    "Paid Search" has conversions and a CPA of 10. *)
Lemma lowestCPA_selects_first_without_conversions_witness :
  main strconv.ParseDecimal sort.insertionSort_func (fun _ => organicAndPaid)
       (flagsSortedBy "roas") =
  (let organic := {| Campaign.Name := "Organic Social"; Campaign.Impressions := 5000;
                     Campaign.Clicks := 200; Campaign.Conversions := 0;
                     Campaign.Spend := 100; Campaign.Revenue := 900 |} in
   let paid := {| Campaign.Name := "Paid Search"; Campaign.Impressions := 8000;
                  Campaign.Clicks := 400; Campaign.Conversions := 20;
                  Campaign.Spend := 200; Campaign.Revenue := 1000 |} in
   let all := [computeMetrics organic; computeMetrics paid] in
   {| output := [Heading "campaigns.csv" 2 "roas"; Table all; Summary (totalMetrics all);
                 BestROAS "Organic Social" 9; LowestCPA "Organic Social" 0];
      exitCode := 0 |}) /\
  Metrics.CPA (computeMetrics
     {| Campaign.Name := "Paid Search"; Campaign.Impressions := 8000;
        Campaign.Clicks := 400; Campaign.Conversions := 20;
        Campaign.Spend := 200; Campaign.Revenue := 1000 |}) = 10%float /\
  lowestCPA
    (computeMetrics
       {| Campaign.Name := "Organic Social"; Campaign.Impressions := 5000;
          Campaign.Clicks := 200; Campaign.Conversions := 0;
          Campaign.Spend := 100; Campaign.Revenue := 900 |})
    (map computeMetrics
       [{| Campaign.Name := "Paid Search"; Campaign.Impressions := 8000;
           Campaign.Clicks := 400; Campaign.Conversions := 20;
           Campaign.Spend := 200; Campaign.Revenue := 1000 |}]) =
  computeMetrics
       {| Campaign.Name := "Organic Social"; Campaign.Impressions := 5000;
          Campaign.Clicks := 200; Campaign.Conversions := 0;
          Campaign.Spend := 100; Campaign.Revenue := 900 |}.
Proof.
  split; [vm_compute; reflexivity|]. split; [vm_compute; reflexivity|].
  apply lowestCPA_selects_first_without_conversions; reflexivity.
Defined.

(* ================================================================== *)
(** ** The empty result *)

(** The warning branch of [main]: if the load returned no campaign and no
    error, the run would write the warning to standard error, write
    nothing else, and exit with status 0. *)
Lemma no_campaign_rows_is_a_warning
  (ParseFloat : string -> option float)
  (sort_Slice : list Metrics -> (Metrics -> Metrics -> bool) -> list Metrics)
  (fsys : string -> fileContents) (fl : Flags) :
  filePath fl <> "" ->
  loadCSV ParseFloat (fsys (filePath fl)) = Ok [] ->
  main ParseFloat sort_Slice fsys fl = {| output := [WarnNoRows]; exitCode := 0 |}.
Proof.
  intros Hfile Hload. unfold main.
  destruct (String.eqb_spec (filePath fl) "") as [E|_]; [contradiction|].
  rewrite Hload. reflexivity.
Qed.

(** Only a record list that csv.Reader does not return takes that branch:
    one whose data records have no field at all. *)
Lemma no_campaign_rows_is_a_warning_witness :
  loadCSV strconv.ParseDecimal (Records [headerRow; []]) = Ok [] /\
  main strconv.ParseDecimal sort.insertionSort_func (fun _ => Records [headerRow; []])
       (flagsSortedBy "roas") = {| output := [WarnNoRows]; exitCode := 0 |}.
Proof.
  split; [reflexivity|].
  apply no_campaign_rows_is_a_warning; [discriminate|reflexivity].
Defined.

(** A file with a header and no data row does not load: it is an error,
    and the exit status is 1. *)
Lemma header_only_file_is_an_error
  (ParseFloat : string -> option float)
  (sort_Slice : list Metrics -> (Metrics -> Metrics -> bool) -> list Metrics)
  (header : list string) :
  main ParseFloat sort_Slice (fun _ => Records [header]) (flagsSortedBy "roas") =
  {| output := [ErrLoad NoDataRow]; exitCode := 1 |}.
Proof. reflexivity. Qed.

(** The loop of the loader only appends: what it returns is at least as
    long as what it started from. *)
Lemma loadRows_keeps (ParseFloat : string -> option float) (header : columnIndex)
  (rows : list (list string)) :
  forall (i : nat) (campaigns loaded : list Campaign),
  loadRows ParseFloat header i rows campaigns = Ok loaded ->
  (List.length campaigns <= List.length loaded)%nat.
Proof.
  induction rows as [|row rows IH]; intros i campaigns loaded H; cbn [loadRows] in H.
  - injection H as <-. lia.
  - destruct (List.length row =? 0)%nat; [exact (IH _ _ _ H)|].
    destruct (loadRow ParseFloat header i row) as [c|e|]; cbn [bind] in H;
      try discriminate H.
    apply IH in H. rewrite length_app in H. simpl in H. lia.
Qed.

(** On records as csv.Reader returns them, a load that succeeds has read
    a campaign. *)
Lemma loadCSV_not_empty (ParseFloat : string -> option float) (rows : list (list string)) :
  uniform rows -> loadCSV ParseFloat (Records rows) <> Ok [].
Proof.
  intros Huniform Hload.
  destruct rows as [|first [|row rows]]; try discriminate Hload.
  cbn [loadCSV] in Hload. cbn [uniform] in Huniform.
  destruct (checkRequired (buildHeader noColumns 0 first) requiredCols) as [[]|e|] eqn:Hreq;
    cbn [bind] in Hload; try discriminate Hload.
  destruct first as [|h first]; [discriminate Hreq|].
  pose proof (Forall_inv Huniform) as Hlen.
  destruct row as [|x row]; [discriminate Hlen|].
  cbn [loadRows List.length Nat.eqb] in Hload.
  destruct (loadRow ParseFloat (buildHeader noColumns 0 (h :: first)) 0 (x :: row)) as [c|e|];
    cbn [bind] in Hload; try discriminate Hload.
  apply loadRows_keeps in Hload. simpl in Hload. lia.
Qed.

(** C8, as amended.  An input with zero campaign rows does not load: a
    file of fewer than two records (only a header row, or nothing) is an
    error of the loader, and the run exits with status 1.  On records as
    csv.Reader returns them a load that succeeds returns at least one
    campaign, so that the run never writes the warning: when it exits
    with status 0 it has written the report of the loaded campaigns. *)
Theorem zero_campaign_rows_is_a_load_error
  (ParseFloat : string -> option float)
  (sort_Slice : list Metrics -> (Metrics -> Metrics -> bool) -> list Metrics)
  (fsys : string -> fileContents) (fl : Flags) (rows : list (list string)) :
  filePath fl <> "" ->
  fsys (filePath fl) = Records rows ->
  uniform rows ->
  let run := main ParseFloat sort_Slice fsys fl in
  ((List.length rows < 2)%nat ->
   run = {| output := [ErrLoad NoDataRow]; exitCode := 1 |}) /\
  loadCSV ParseFloat (Records rows) <> Ok [] /\
  ~ In WarnNoRows (output run) /\
  (exitCode run = 0%Z ->
   exists c cs,
     loadCSV ParseFloat (Records rows) = Ok (c :: cs) /\
     output run = report fl (pipeline sort_Slice fl (c :: cs))).
Proof.
  intros Hfile Hrows Huniform.
  pose proof (loadCSV_not_empty ParseFloat rows Huniform) as Hne.
  cbv zeta. unfold main.
  destruct (String.eqb_spec (filePath fl) "") as [E|_]; [contradiction|].
  rewrite Hrows. split; [|split; [exact Hne|]].
  - intros Hlen. destruct rows as [|first [|row rows]]; [reflexivity|reflexivity|].
    simpl in Hlen. lia.
  - destruct (loadCSV ParseFloat (Records rows)) as [[|c cs]|e|].
    + contradiction.
    + cbn [List.length Nat.eqb output exitCode]. split.
      * unfold report. intros [H|[H|[H|H]]]; try discriminate H.
        destruct (pipeline sort_Slice fl (c :: cs)) as [|m1 [|m2 ms]]; cbn [bestWorst In] in H;
          try contradiction.
        destruct H as [H|[H|H]]; try discriminate H. contradiction.
      * intros _. exists c, cs. split; reflexivity.
    + cbn [output exitCode]. split; [|discriminate].
      intros [H|H]; [discriminate H|contradiction].
    + cbn [output exitCode]. split; [|discriminate].
      intros [H|H]; [discriminate H|contradiction].
Qed.

(** The file that has the header row and nothing else is an error; the
    file with one campaign is reported without a warning. *)
Lemma zero_campaign_rows_is_a_load_error_witness :
  main strconv.ParseDecimal sort.insertionSort_func (fun _ => Records [headerRow])
       (flagsSortedBy "roas") =
  {| output := [ErrLoad NoDataRow]; exitCode := 1 |} /\
  ~ In WarnNoRows
       (output (main strconv.ParseDecimal sort.insertionSort_func (fun _ => paidOnly)
                     (flagsSortedBy "roas"))).
Proof.
  split.
  - destruct (zero_campaign_rows_is_a_load_error strconv.ParseDecimal sort.insertionSort_func
                (fun _ => Records [headerRow]) (flagsSortedBy "roas") [headerRow])
      as [Hshort _].
    + discriminate.
    + reflexivity.
    + constructor.
    + apply Hshort. simpl. lia.
  - destruct (zero_campaign_rows_is_a_load_error strconv.ParseDecimal sort.insertionSort_func
                (fun _ => paidOnly) (flagsSortedBy "roas")
                [headerRow; ["Paid Search"; "8000"; "400"; "20"; "200"; "1000"]])
      as (_ & _ & Hquiet & _).
    + discriminate.
    + reflexivity.
    + repeat constructor.
    + exact Hquiet.
Defined.

(** C8 as stated fails.  The file whose only record is the header row has
    every required column and no campaign row; the run does not warn and
    exit with status 0: it reports the loader's error and exits with
    status 1. *)
Lemma header_only_file_is_fatal :
  checkRequired (buildHeader noColumns 0 headerRow) requiredCols = Ok tt /\
  loadCSV strconv.ParseDecimal (Records [headerRow]) = Err NoDataRow /\
  main strconv.ParseDecimal sort.insertionSort_func (fun _ => Records [headerRow])
       (flagsSortedBy "roas") =
    {| output := [ErrLoad NoDataRow]; exitCode := 1 |} /\
  main strconv.ParseDecimal sort.insertionSort_func (fun _ => Records [headerRow])
       (flagsSortedBy "roas") <>
    {| output := [WarnNoRows]; exitCode := 0 |}.
Proof.
  split; [reflexivity|]. split; [reflexivity|]. split; [reflexivity|]. discriminate.
Qed.

(* ================================================================== *)
(** ** The loader *)

Lemma buildHeader_lookup (row : list string) :
  forall (header : columnIndex) (i : nat) (col : string) (k : nat),
  buildHeader header i row col = Some k ->
  header col = Some k \/ (i <= k < i + List.length row)%nat.
Proof.
  induction row as [|h hs IH]; intros header i col k H; simpl in *.
  - left. exact H.
  - apply IH in H as [H|H]; [|right; lia].
    unfold setColumn in H.
    destruct (col =? strings.ToLower (strings.TrimSpace h)).
    + injection H as <-. right. lia.
    + left. exact H.
Qed.

Lemma checkRequired_ok (header : columnIndex) (cols : list string) :
  checkRequired header cols = Ok tt ->
  forall col, In col cols -> exists k, header col = Some k.
Proof.
  induction cols as [|c cols IH]; intros H col Hin; simpl in *; [contradiction|].
  destruct (header c) as [k|] eqn:E; [|discriminate H].
  destruct Hin as [<-|Hin]; [exists k; exact E|apply IH; assumption].
Qed.

(** In a row as long as the header row, every required column has a cell. *)
Lemma cell_defined (first row : list string) (col : string) :
  checkRequired (buildHeader noColumns 0 first) requiredCols = Ok tt ->
  List.length row = List.length first -> In col requiredCols ->
  exists s, cell (buildHeader noColumns 0 first) row col = Some s.
Proof.
  intros Hreq Hlen Hin.
  destruct (checkRequired_ok _ _ Hreq col Hin) as [k Hk].
  unfold cell, indexOf. rewrite Hk.
  apply buildHeader_lookup in Hk as [Hk|Hk]; [discriminate Hk|].
  destruct (nth_error row k) as [s|] eqn:E; [exists s; reflexivity|].
  apply nth_error_None in E. lia.
Qed.

Section LoaderFacts.
Variable ParseFloat : string -> option float.
Variable header : columnIndex.

Lemma parse_ok (i : nat) (row : list string) (col : string) :
  parsesCol ParseFloat header row col ->
  exists v, parse ParseFloat header i row col = Ok v.
Proof.
  intros (s & v & Hcell & Hparse). exists v.
  unfold parse, field. unfold cell in Hcell. rewrite Hcell. simpl.
  rewrite Hparse. reflexivity.
Qed.

Lemma parse_bad (i : nat) (row : list string) (col text : string) :
  cell header row col = Some text -> parseFloat ParseFloat text = None ->
  parse ParseFloat header i row col = Err (BadField (i + 2) col (cleaned text)).
Proof.
  intros Hcell Hparse. unfold parse, field. unfold cell in Hcell.
  rewrite Hcell. simpl. rewrite Hparse. reflexivity.
Qed.

Lemma loadRow_ok (i : nat) (row : list string) (name : string) :
  rowParses ParseFloat header row ->
  cell header row "campaign_name" = Some name ->
  exists c, loadRow ParseFloat header i row = Ok c.
Proof.
  intros Hrow Hname. unfold loadRow.
  destruct (parse_ok i row "impressions" (Hrow "impressions" ltac:(simpl; tauto))) as [v1 ->].
  destruct (parse_ok i row "clicks" (Hrow "clicks" ltac:(simpl; tauto))) as [v2 ->].
  destruct (parse_ok i row "conversions" (Hrow "conversions" ltac:(simpl; tauto))) as [v3 ->].
  destruct (parse_ok i row "spend" (Hrow "spend" ltac:(simpl; tauto))) as [v4 ->].
  destruct (parse_ok i row "revenue" (Hrow "revenue" ltac:(simpl; tauto))) as [v5 ->].
  unfold field. unfold cell in Hname. rewrite Hname. simpl. eexists. reflexivity.
Qed.

(** The first column of a row that does not parse is the one reported. *)
Lemma loadRow_bad (i : nat) (row okCols laterCols : list string) (col text : string) :
  numericCols = (okCols ++ col :: laterCols)%list ->
  Forall (parsesCol ParseFloat header row) okCols ->
  cell header row col = Some text -> parseFloat ParseFloat text = None ->
  loadRow ParseFloat header i row = Err (BadField (i + 2) col (cleaned text)).
Proof.
  intros Hcols Hok Hcell Hparse.
  pose proof (parse_bad i row col text Hcell Hparse) as Hbad.
  unfold numericCols in Hcols. unfold loadRow.
  repeat (destruct okCols as [|c okCols];
          [ simpl in Hcols; injection Hcols as <- _; rewrite Hbad; reflexivity
          | simpl in Hcols; injection Hcols as <- Hcols;
            destruct (parse_ok i row _ (Forall_inv Hok)) as [? ->];
            apply Forall_inv_tail in Hok; cbn [bind] ]).
  destruct okCols; discriminate Hcols.
Qed.

Lemma loadRows_skips_good (i : nat) (good tail : list (list string)) :
  forall campaigns : list Campaign,
  Forall (rowParses ParseFloat header) good ->
  Forall (fun row => exists name, cell header row "campaign_name" = Some name) good ->
  exists loaded,
    List.length loaded = List.length good /\
    loadRows ParseFloat header i (good ++ tail) campaigns =
    loadRows ParseFloat header (i + List.length good) tail (campaigns ++ loaded).
Proof.
  revert i. induction good as [|row good IH]; intros i campaigns Hparse Hname.
  - exists []. rewrite app_nil_r, Nat.add_0_r. split; reflexivity.
  - destruct (Forall_inv Hname) as [name Hn].
    destruct (loadRow_ok i row name (Forall_inv Hparse) Hn) as [c Hc].
    destruct (IH (S i) (campaigns ++ [c])%list (Forall_inv_tail Hparse) (Forall_inv_tail Hname))
      as (loaded & Hlen & Hload).
    exists (c :: loaded). split; [simpl; lia|].
    cbn [app loadRows].
    destruct row as [|cell0 row]; [unfold cell in Hn; destruct (indexOf _ _); discriminate Hn|].
    cbn [List.length Nat.eqb]. rewrite Hc. cbn [bind].
    rewrite Hload, <- app_assoc. cbn [app List.length]. f_equal. lia.
Qed.

End LoaderFacts.

(** When every row parses, whatever the signs of its numbers, the load
    gives one campaign per row. *)
Lemma loadCSV_loads_all_rows
  (ParseFloat : string -> option float) (first row : list string)
  (rows : list (list string)) :
  let header := buildHeader noColumns 0 first in
  checkRequired header requiredCols = Ok tt ->
  Forall (fun r => List.length r = List.length first) (row :: rows) ->
  Forall (rowParses ParseFloat header) (row :: rows) ->
  exists campaigns,
    loadCSV ParseFloat (Records (first :: row :: rows)) = Ok campaigns /\
    List.length campaigns = S (List.length rows).
Proof.
  intros header Hreq Hlen Hgood.
  assert (Hnames : Forall (fun r => exists name, cell header r "campaign_name" = Some name)
                          (row :: rows)).
  { apply Forall_forall. intros r Hr.
    apply (cell_defined first r "campaign_name" Hreq); [|simpl; tauto].
    rewrite Forall_forall in Hlen. apply Hlen, Hr. }
  destruct (loadRows_skips_good ParseFloat header 0 (row :: rows) [] [] Hgood Hnames)
    as (loaded & Hn & Hload).
  exists loaded. split; [|exact Hn].
  unfold loadCSV. fold header. rewrite Hreq. cbn [bind].
  rewrite app_nil_r in Hload. rewrite Hload. reflexivity.
Qed.

(** C7, as the code has it.  The records are as csv.Reader returns them,
    each as long as the header row, which names the required columns.
    When the rows [good] parse and the row after them has a first numeric
    column [col] whose text strconv.ParseFloat rejects, the load returns
    an error, and so no campaign at all, that names the row, numbered
    from 1 with the header row as row 1, the column, and the text that
    was rejected. *)
Theorem loadCSV_fails_at_first_bad_field
  (ParseFloat : string -> option float)
  (first bad : list string) (good rest : list (list string))
  (okCols laterCols : list string) (col text : string) :
  let header := buildHeader noColumns 0 first in
  checkRequired header requiredCols = Ok tt ->
  Forall (fun row => List.length row = List.length first) (good ++ bad :: rest) ->
  Forall (rowParses ParseFloat header) good ->
  numericCols = (okCols ++ col :: laterCols)%list ->
  Forall (parsesCol ParseFloat header bad) okCols ->
  cell header bad col = Some text ->
  parseFloat ParseFloat text = None ->
  loadCSV ParseFloat (Records (first :: good ++ bad :: rest)) =
  Err (BadField (List.length good + 2) col (cleaned text)).
Proof.
  intros header Hreq Hlen Hgood Hcols Hok Hcell Hparse.
  assert (Hnames : Forall (fun row => exists name, cell header row "campaign_name" = Some name) good).
  { apply Forall_forall. intros row Hrow.
    apply (cell_defined first row "campaign_name" Hreq); [|simpl; tauto].
    rewrite Forall_forall in Hlen. apply Hlen, in_or_app. left. exact Hrow. }
  destruct (loadRows_skips_good ParseFloat header 0 good (bad :: rest) [] Hgood Hnames)
    as (loaded & _ & Hload).
  unfold loadCSV.
  destruct (good ++ bad :: rest)%list as [|row0 data] eqn:E;
    [destruct good; discriminate E|].
  fold header. rewrite Hreq. cbn [bind]. rewrite Hload.
  cbn [loadRows Nat.add].
  destruct bad as [|cell0 bad'];
    [unfold cell in Hcell; destruct (indexOf header col); discriminate Hcell|].
  cbn [List.length Nat.eqb].
  rewrite (loadRow_bad ParseFloat header (List.length good) (cell0 :: bad')
             okCols laterCols col text Hcols Hok Hcell Hparse).
  reflexivity.
Qed.

(** The third line of the file has "n/a" in its spend column: the error
    names row 3 and "spend", though later texts are no numbers either. *)
Lemma loadCSV_fails_at_first_bad_field_witness :
  loadCSV strconv.ParseDecimal (Records badSpendFile) = Err (BadField 3 "spend" "n/a").
Proof.
  apply (loadCSV_fails_at_first_bad_field strconv.ParseDecimal headerRow
           ["Display"; "1,200"; "40 "; "2"; "n/a "; "oops"]
           [["Paid Search"; "8000"; "400"; "20"; "200"; "1000"]]
           [["Video"; "x"; "1"; "1"; "1"; "1"]]
           ["impressions"; "clicks"; "conversions"] ["revenue"] "spend" "n/a ").
  - reflexivity.
  - repeat constructor.
  - constructor; [|constructor].
    intros col [<-|[<-|[<-|[<-|[<-|[]]]]]]; eexists; eexists; split; reflexivity.
  - reflexivity.
  - repeat constructor; eexists; eexists; split; reflexivity.
  - reflexivity.
  - reflexivity.
Defined.

(** C7 as stated fails: negative measures are not a load-time error.  The
    file loads, with an impressions count of -5 and a revenue of -20.5,
    and the run goes on to the report and exits with status 0. *)
Lemma negative_measures_load :
  loadCSV strconv.ParseDecimal negativeFile =
    Ok [{| Campaign.Name := "Refunds"; Campaign.Impressions := -5;
           Campaign.Clicks := 1; Campaign.Conversions := 1;
           Campaign.Spend := 1; Campaign.Revenue := -20.5 |}] /\
  exitCode (main strconv.ParseDecimal sort.insertionSort_func (fun _ => negativeFile)
                 (flagsSortedBy "roas")) = 0%Z /\
  map Metrics.ROAS
      (computeAll (-100) [{| Campaign.Name := "Refunds"; Campaign.Impressions := -5;
                             Campaign.Clicks := 1; Campaign.Conversions := 1;
                             Campaign.Spend := 1; Campaign.Revenue := -20.5 |}])
    = [(-20.5)%float].
Proof.
  split; [vm_compute; reflexivity|]. split; vm_compute; reflexivity.
Qed.

(* ================================================================== *)
(** ** More facts about binary64 *)

Module F64More.
Import F64 F64Facts.

Lemma SFadd_ge0 (x y : spec_float) :
  SFge0 x = true -> SFge0 y = true -> SFge0 (SFadd prec emax x y) = true.
Proof.
  destruct x as [sx|sx| |sx mx ex], y as [sy|sy| |sy my ey]; simpl;
    try discriminate; destruct sx, sy; simpl; try discriminate; try reflexivity.
  intros _ _.
  unfold binary_normalize. simpl.
  unfold binary_round.
  destruct (shl_align _ _ _) as [mz ez].
  apply SFsigned_false_ge0, binary_round_aux_signed. lia.
Qed.

Lemma add_ge0 (x y : float) :
  (0 <=? x)%float = true -> (0 <=? y)%float = true -> (0 <=? x + y)%float = true.
Proof.
  rewrite !leb_zero_spec, FloatAxioms.add_spec. apply SFadd_ge0.
Qed.

Lemma SFleb_trans (x y z : spec_float) :
  SFleb x y = true -> SFleb y z = true -> SFleb x z = true.
Proof.
  unfold SFleb.
  destruct x as [[]|[]| |[] mx ex], y as [[]|[]| |[] my ey], z as [[]|[]| |[] mz ez];
    simpl; try discriminate; try reflexivity; intros H1 H2; cmp_cases.
Qed.

Lemma leb_trans (x y z : float) :
  (x <=? y)%float = true -> (y <=? z)%float = true -> (x <=? z)%float = true.
Proof. rewrite !FloatAxioms.leb_spec. apply SFleb_trans. Qed.

Lemma leb_nan_l (x : float) : (nan <=? x)%float = false.
Proof. rewrite FloatAxioms.leb_spec. reflexivity. Qed.

Lemma SFleb_false_ltb_or_nan (x y : spec_float) :
  SFleb x y = false -> SFltb y x = true \/ x = S754_nan \/ y = S754_nan.
Proof.
  unfold SFltb, SFleb.
  destruct x as [[]|[]| |[] mx ex], y as [[]|[]| |[] my ey];
    simpl; try discriminate; auto; intros H1; left; cmp_cases.
Qed.

(** Where [x <= y] fails, [y < x] holds or one of the two is NaN. *)
Lemma leb_false_ltb (x y : float) :
  (x <=? y)%float = false ->
  (y <? x)%float = true \/ (y =? y)%float = false \/ (x =? x)%float = false.
Proof.
  rewrite FloatAxioms.leb_spec, FloatAxioms.ltb_spec, !FloatAxioms.eqb_spec.
  intros H. apply SFleb_false_ltb_or_nan in H as [H|[H|H]]; auto.
  - right. right. rewrite H. reflexivity.
  - right. left. rewrite H. reflexivity.
Qed.

Lemma leb_true_not_nan (x y : float) :
  (x <=? y)%float = true -> (x =? x)%float = true /\ (y =? y)%float = true.
Proof.
  rewrite FloatAxioms.leb_spec, !FloatAxioms.eqb_spec. unfold SFleb, SFeqb.
  destruct (Prim2SF x) as [[]|[]| |[] mx ex], (Prim2SF y) as [[]|[]| |[] my ey];
    simpl; try discriminate; intros _; split; try reflexivity; cmp_cases.
Qed.

End F64More.

(* ================================================================== *)
(** ** The loader: header, missing columns, panics, loaded campaigns *)

(** A column that no cell of the row names is left as it was. *)
Lemma buildHeader_unnamed (row : list string) :
  forall (header : columnIndex) (i : nat) (col : string),
  (forall h, In h row -> columnName h <> col) ->
  buildHeader header i row col = header col.
Proof.
  induction row as [|h hs IH]; intros header i col Hno; [reflexivity|].
  cbn [buildHeader]. rewrite IH by (intros h' Hh'; apply Hno; right; exact Hh').
  unfold setColumn. fold (columnName h).
  destruct (String.eqb_spec col (columnName h)) as [E|_]; [|reflexivity].
  exfalso. apply (Hno h); [left; reflexivity|]. symmetry. exact E.
Qed.

Lemma buildHeader_last (pre : list string) :
  forall (header : columnIndex) (i : nat) (h : string) (post : list string),
  (forall h', In h' post -> columnName h' <> columnName h) ->
  buildHeader header i (pre ++ h :: post) (columnName h) = Some (i + List.length pre)%nat.
Proof.
  induction pre as [|p pre IH]; intros header i h post Hno.
  - cbn [app buildHeader List.length]. rewrite buildHeader_unnamed by exact Hno.
    unfold setColumn. fold (columnName h). rewrite String.eqb_refl. f_equal. lia.
  - cbn [app buildHeader List.length]. rewrite IH by exact Hno. f_equal. lia.
Qed.

Lemma buildHeader_named (row : list string) :
  forall (header : columnIndex) (i : nat) (col : string),
  header col <> None \/ named row col -> buildHeader header i row col <> None.
Proof.
  induction row as [|h hs IH]; intros header i col H.
  - destruct H as [H|(h & [] & _)]. exact H.
  - cbn [buildHeader]. apply IH. unfold setColumn. fold (columnName h).
    destruct (String.eqb_spec col (columnName h)) as [E|N]; [left; discriminate|].
    destruct H as [H|(h' & [<-|Hin] & E)]; [left; exact H| |].
    + exfalso. apply N. symmetry. exact E.
    + right. exists h'. split; assumption.
Qed.

(** X4.  A column is found by its name, whatever the case of its letters
    and the white space around it, and wherever it stands in the header
    row; when several cells of the header row have the name, the last one
    is the column: every row is read at its index. *)
Theorem header_last_duplicate_wins
  (first pre post : list string) (h col : string) :
  first = (pre ++ h :: post)%list ->
  columnName h = col ->
  (forall h', In h' post -> columnName h' <> col) ->
  buildHeader noColumns 0 first col = Some (List.length pre) /\
  forall row, cell (buildHeader noColumns 0 first) row col = nth_error row (List.length pre).
Proof.
  intros -> <- Hno.
  assert (H : buildHeader noColumns 0 (pre ++ h :: post) (columnName h) = Some (List.length pre))
    by (rewrite buildHeader_last by exact Hno; reflexivity).
  split; [exact H|]. intros row. unfold cell, indexOf. rewrite H. reflexivity.
Qed.

(** Two cells are named "spend": the text of the second is the spend. *)
Lemma header_last_duplicate_wins_witness :
  buildHeader noColumns 0 ["Spend"; "campaign_name"; "SPEND "; "revenue"] "spend" = Some 2%nat /\
  cell (buildHeader noColumns 0 ["Spend"; "campaign_name"; "SPEND "; "revenue"])
       ["old"; "Display"; "75.5"; "300"] "spend" = Some "75.5".
Proof.
  destruct (header_last_duplicate_wins
              ["Spend"; "campaign_name"; "SPEND "; "revenue"]
              ["Spend"; "campaign_name"] ["revenue"] "SPEND " "spend"
              eq_refl eq_refl) as [H1 H2].
  - intros h' [<-|[]]. discriminate.
  - split; [exact H1|]. rewrite H2. reflexivity.
Defined.

Lemma checkRequired_first_missing (header : columnIndex) (present : list string) :
  forall (col : string) (later : list string),
  Forall (fun c => header c <> None) present -> header col = None ->
  checkRequired header (present ++ col :: later) = Err (MissingRequiredColumn col).
Proof.
  induction present as [|c present IH]; intros col later Hp Hc.
  - cbn [app checkRequired]. rewrite Hc. reflexivity.
  - cbn [app checkRequired].
    destruct (header c) eqn:E; [|exfalso; exact (Forall_inv Hp E)].
    apply IH; [exact (Forall_inv_tail Hp)|exact Hc].
Qed.

(** X3.  When the header row names the required columns before [col] and
    has no cell named [col], the load fails with the error that names
    [col], the first missing column in the order of [requiredCols];
    no data row is read, whatever it holds. *)
Theorem loadCSV_reports_first_missing_column
  (ParseFloat : string -> option float) (first row : list string)
  (rows : list (list string)) (present later : list string) (col : string) :
  requiredCols = (present ++ col :: later)%list ->
  Forall (named first) present ->
  ~ named first col ->
  loadCSV ParseFloat (Records (first :: row :: rows)) = Err (MissingRequiredColumn col).
Proof.
  intros Hcols Hpresent Hmissing. unfold loadCSV. rewrite Hcols.
  rewrite checkRequired_first_missing; [reflexivity| |].
  - apply Forall_forall. intros c Hc. apply buildHeader_named. right.
    rewrite Forall_forall in Hpresent. apply Hpresent, Hc.
  - rewrite buildHeader_unnamed; [reflexivity|].
    intros h Hh E. apply Hmissing. exists h. split; assumption.
Qed.

(** The file whose cost column is not named "spend". *)
Lemma loadCSV_reports_first_missing_column_witness :
  loadCSV strconv.ParseDecimal (Records noSpendFile) = Err (MissingRequiredColumn "spend").
Proof.
  apply (loadCSV_reports_first_missing_column strconv.ParseDecimal _ _ _
           ["campaign_name"; "impressions"; "clicks"; "conversions"] ["revenue"] "spend").
  - reflexivity.
  - repeat (apply Forall_cons;
            [match goal with
             | |- named _ ?c => exists c; split; [simpl; tauto|reflexivity]
             end|]).
    apply Forall_nil.
  - intros (h & Hin & E). simpl in Hin.
    repeat (destruct Hin as [<-|Hin]; [discriminate E|]). exact Hin.
Defined.

Lemma checkRequired_not_Panic (header : columnIndex) (cols : list string) :
  checkRequired header cols <> Panic.
Proof.
  induction cols as [|c cols IH]; simpl; [discriminate|].
  destruct (header c); [exact IH|discriminate].
Qed.

Section NoPanic.
Variable ParseFloat : string -> option float.
Variable header : columnIndex.

Lemma parse_Ok_or_Err (i : nat) (row : list string) (col s : string) :
  cell header row col = Some s ->
  (exists v, parse ParseFloat header i row col = Ok v) \/
  (exists e, parse ParseFloat header i row col = Err e).
Proof.
  intros Hcell. unfold parse, field. unfold cell in Hcell. rewrite Hcell. cbn [bind].
  destruct (parseFloat ParseFloat s); [left|right]; eexists; reflexivity.
Qed.

Lemma loadRow_not_Panic (i : nat) (row : list string) :
  (forall col, In col requiredCols -> exists s, cell header row col = Some s) ->
  loadRow ParseFloat header i row <> Panic.
Proof.
  intros Hcells. unfold loadRow.
  destruct (Hcells "impressions" ltac:(simpl; tauto)) as [s1 H1].
  destruct (parse_Ok_or_Err i row _ _ H1) as [[v1 ->]|[e ->]]; [|discriminate].
  destruct (Hcells "clicks" ltac:(simpl; tauto)) as [s2 H2].
  destruct (parse_Ok_or_Err i row _ _ H2) as [[v2 ->]|[e ->]]; [|discriminate].
  destruct (Hcells "conversions" ltac:(simpl; tauto)) as [s3 H3].
  destruct (parse_Ok_or_Err i row _ _ H3) as [[v3 ->]|[e ->]]; [|discriminate].
  destruct (Hcells "spend" ltac:(simpl; tauto)) as [s4 H4].
  destruct (parse_Ok_or_Err i row _ _ H4) as [[v4 ->]|[e ->]]; [|discriminate].
  destruct (Hcells "revenue" ltac:(simpl; tauto)) as [s5 H5].
  destruct (parse_Ok_or_Err i row _ _ H5) as [[v5 ->]|[e ->]]; [|discriminate].
  destruct (Hcells "campaign_name" ltac:(simpl; tauto)) as [s6 H6].
  unfold field. unfold cell in H6. rewrite H6. discriminate.
Qed.

Lemma loadRows_not_Panic (rows : list (list string)) :
  Forall (fun row => forall col, In col requiredCols ->
                     exists s, cell header row col = Some s) rows ->
  forall (i : nat) (campaigns : list Campaign),
  loadRows ParseFloat header i rows campaigns <> Panic.
Proof.
  induction rows as [|row rows IH]; intros Hrows i campaigns; [discriminate|].
  cbn [loadRows].
  destruct (List.length row =? 0)%nat; [apply IH, (Forall_inv_tail Hrows)|].
  pose proof (loadRow_not_Panic i row (Forall_inv Hrows)) as Hrow.
  destruct (loadRow ParseFloat header i row) as [c|e|]; cbn [bind];
    [apply IH, (Forall_inv_tail Hrows)|discriminate|contradiction].
Qed.

Lemma parse_value (i : nat) (row : list string) (col : string) :
  parsesCol ParseFloat header row col ->
  exists v, parse ParseFloat header i row col = Ok v /\ parsedAs ParseFloat header row col v.
Proof.
  intros (s & v & Hcell & Hparse). exists v. split.
  - unfold parse, field. unfold cell in Hcell. rewrite Hcell. cbn [bind].
    rewrite Hparse. reflexivity.
  - exists s. split; assumption.
Qed.

Lemma loadRow_gives (i : nat) (row : list string) (name : string) :
  rowParses ParseFloat header row ->
  cell header row "campaign_name" = Some name ->
  exists c, loadRow ParseFloat header i row = Ok c /\ rowGives ParseFloat header row c.
Proof.
  intros Hrow Hname. unfold loadRow.
  destruct (parse_value i row "impressions" (Hrow "impressions" ltac:(simpl; tauto)))
    as (v1 & -> & G1).
  destruct (parse_value i row "clicks" (Hrow "clicks" ltac:(simpl; tauto)))
    as (v2 & -> & G2).
  destruct (parse_value i row "conversions" (Hrow "conversions" ltac:(simpl; tauto)))
    as (v3 & -> & G3).
  destruct (parse_value i row "spend" (Hrow "spend" ltac:(simpl; tauto)))
    as (v4 & -> & G4).
  destruct (parse_value i row "revenue" (Hrow "revenue" ltac:(simpl; tauto)))
    as (v5 & -> & G5).
  unfold field. pose proof Hname as Hn. unfold cell in Hn. rewrite Hn. cbn [bind].
  eexists. split; [reflexivity|].
  unfold rowGives; cbn. repeat split; try assumption.
  exists name. split; [exact Hname|reflexivity].
Qed.

Lemma loadRows_gives (rows : list (list string)) :
  Forall (rowParses ParseFloat header) rows ->
  Forall (fun row => exists name, cell header row "campaign_name" = Some name) rows ->
  forall (i : nat) (campaigns : list Campaign),
  exists loaded,
    loadRows ParseFloat header i rows campaigns = Ok (campaigns ++ loaded)%list /\
    Forall2 (rowGives ParseFloat header) rows loaded.
Proof.
  induction rows as [|row rows IH]; intros Hparse Hname i campaigns.
  - exists []. rewrite app_nil_r. split; [reflexivity|constructor].
  - destruct (Forall_inv Hname) as [name Hn].
    destruct (loadRow_gives i row name (Forall_inv Hparse) Hn) as (c & Hc & Gc).
    destruct (IH (Forall_inv_tail Hparse) (Forall_inv_tail Hname) (S i) (campaigns ++ [c])%list)
      as (loaded & Hload & Hall).
    exists (c :: loaded). split; [|constructor; assumption].
    cbn [loadRows].
    destruct row as [|cell0 row]; [unfold cell in Hn; destruct (indexOf _ _); discriminate Hn|].
    cbn [List.length Nat.eqb]. rewrite Hc. cbn [bind].
    rewrite Hload, <- app_assoc. reflexivity.
Qed.
End NoPanic.

(** X1.  On records that all have as many fields as the first, which is
    what csv.Reader returns, the load never indexes a row out of range:
    it returns campaigns or an error, and the run never ends in a panic
    (exit status 2), whatever the cells hold. *)
Theorem loadCSV_never_panics
  (ParseFloat : string -> option float)
  (sort_Slice : list Metrics -> (Metrics -> Metrics -> bool) -> list Metrics)
  (fl : Flags) (file : fileContents) :
  (forall rows, file = Records rows -> uniform rows) ->
  loadCSV ParseFloat file <> Panic /\
  exitCode (main ParseFloat sort_Slice (fun _ => file) fl) <> 2%Z.
Proof.
  intros Huniform.
  assert (Hload : loadCSV ParseFloat file <> Panic).
  { destruct file as [cause|cause|rows]; try discriminate.
    specialize (Huniform rows eq_refl).
    destruct rows as [|first [|row rows]]; try discriminate.
    cbn [loadCSV].
    destruct (checkRequired (buildHeader noColumns 0 first) requiredCols) as [[]|e|] eqn:Hreq;
      cbn [bind]; [|discriminate|destruct (checkRequired_not_Panic _ _ Hreq)].
    apply loadRows_not_Panic. cbn [uniform] in Huniform.
    rewrite Forall_forall in Huniform |- *. intros r Hr col Hcol.
    apply (cell_defined first r col Hreq (Huniform r Hr) Hcol). }
  split; [exact Hload|]. unfold main.
  destruct (filePath fl =? ""); [discriminate|].
  destruct (loadCSV ParseFloat file) as [campaigns|e|]; [|discriminate|contradiction].
  destruct (List.length campaigns =? 0)%nat; discriminate.
Qed.

(** The file with texts that are no numbers: an error, no panic. *)
Lemma loadCSV_never_panics_witness :
  loadCSV strconv.ParseDecimal (Records badSpendFile) <> Panic /\
  exitCode (main strconv.ParseDecimal sort.insertionSort_func
                 (fun _ => Records badSpendFile) (flagsSortedBy "roas")) <> 2%Z.
Proof.
  apply loadCSV_never_panics.
  intros rows E. injection E as <-. cbn [uniform badSpendFile]. repeat constructor.
Defined.

(** X2.  When the header row names the required columns and every row
    parses, the load returns one campaign per row, in the order of the
    rows: its name is the trimmed text of the row's name column and each
    measure is what the cell of the column of that name parses as,
    wherever the column stands and whatever other columns there are. *)
Theorem loadCSV_gives_one_campaign_per_row
  (ParseFloat : string -> option float) (first row : list string)
  (rows : list (list string)) :
  let header := buildHeader noColumns 0 first in
  checkRequired header requiredCols = Ok tt ->
  Forall (fun r => List.length r = List.length first) (row :: rows) ->
  Forall (rowParses ParseFloat header) (row :: rows) ->
  exists campaigns,
    loadCSV ParseFloat (Records (first :: row :: rows)) = Ok campaigns /\
    Forall2 (rowGives ParseFloat header) (row :: rows) campaigns.
Proof.
  intros header Hreq Hlen Hgood.
  assert (Hnames : Forall (fun r => exists name, cell header r "campaign_name" = Some name)
                          (row :: rows)).
  { apply Forall_forall. intros r Hr.
    apply (cell_defined first r "campaign_name" Hreq); [|simpl; tauto].
    rewrite Forall_forall in Hlen. apply Hlen, Hr. }
  destruct (loadRows_gives ParseFloat header (row :: rows) Hgood Hnames 0 [])
    as (loaded & Hload & Hall).
  exists loaded. split; [|exact Hall].
  unfold loadCSV. fold header. rewrite Hreq. cbn [bind]. exact Hload.
Qed.

(** The file with its columns in another order loads as two campaigns. *)
Lemma loadCSV_gives_one_campaign_per_row_witness :
  exists campaigns,
    loadCSV strconv.ParseDecimal (Records shuffledFile) = Ok campaigns /\
    map Campaign.Name campaigns = ["Google Search - Brand"; "Refunds"] /\
    map Campaign.Revenue campaigns = [9200; -20.5]%float /\
    map Campaign.Impressions campaigns = [120000; 5]%float.
Proof.
  destruct (loadCSV_gives_one_campaign_per_row strconv.ParseDecimal
              ["Revenue"; "Spend "; "Campaign_Name"; "CLICKS"; "impressions"; "Conversions"; "notes"]
              ["9,200.00"; "1850"; "Google Search - Brand "; "4800"; "120,000"; "320"; "ok"]
              [["-20.5"; "1"; "Refunds"; "1"; "5"; "1"; ""]])
    as (campaigns & Hload & _).
  - reflexivity.
  - repeat constructor.
  - repeat constructor;
      intros col [<-|[<-|[<-|[<-|[<-|[]]]]]]; eexists; eexists; split; reflexivity.
  - exists campaigns. split; [exact Hload|].
    change (Records shuffledFile) with
      (Records [["Revenue"; "Spend "; "Campaign_Name"; "CLICKS"; "impressions"; "Conversions"; "notes"];
                ["9,200.00"; "1850"; "Google Search - Brand "; "4800"; "120,000"; "320"; "ok"];
                ["-20.5"; "1"; "Refunds"; "1"; "5"; "1"; ""]]) in *.
    vm_compute in Hload. injection Hload as <-.
    repeat split; vm_compute; reflexivity.
Defined.

Lemma removeCommas_app (s t : string) :
  strings.removeCommas (s ++ t) = strings.removeCommas s ++ strings.removeCommas t.
Proof.
  induction s as [|c s IH]; [reflexivity|].
  cbn [append strings.removeCommas]. rewrite IH.
  destruct (Ascii.eqb c ","); reflexivity.
Qed.

(** X5.  [parseFloat] drops every comma, wherever it stands, before the
    text reaches ParseFloat: a text with a comma parses as the text
    without it, so that a comma is never a decimal separator ("12,5" is
    read as 125). *)
Theorem parseFloat_ignores_commas (ParseFloat : string -> option float) (s t : string) :
  parseFloat ParseFloat (s ++ "," ++ t) = parseFloat ParseFloat (s ++ t) /\
  parseFloat ParseFloat (strings.removeCommas s) = parseFloat ParseFloat s.
Proof.
  unfold parseFloat, cleaned. split.
  - rewrite !removeCommas_app. reflexivity.
  - f_equal. f_equal.
    induction s as [|c s IH]; [reflexivity|].
    cbn [strings.removeCommas].
    destruct (Ascii.eqb c ",") eqn:E; [exact IH|].
    cbn [strings.removeCommas]. rewrite E, IH. reflexivity.
Qed.

Example decimal_comma_is_dropped :
  parseFloat strconv.ParseDecimal "12,5" = Some 125%float /\
  parseFloat strconv.ParseDecimal "1,850.00" = Some 1850%float /\
  parseFloat strconv.ParseDecimal ",,7," = Some 7%float.
Proof. repeat split; vm_compute; reflexivity. Qed.

(* ================================================================== *)
(** ** The run: exit status, filter, table and selections *)


(** X7.  Filtering at a higher threshold is filtering, at that threshold,
    what the lower one keeps: raising --min-roas only removes records,
    and never changes their order; no filter adds a record. *)
Theorem raising_minROAS_filters_the_filtered
  (low high : float) (campaigns : list Campaign) :
  (low <=? high)%float = true ->
  computeAll high campaigns =
  filter (fun m => (Metrics.ROAS m >=? high)%float) (computeAll low campaigns) /\
  (List.length (computeAll high campaigns) <= List.length (computeAll low campaigns)
   <= List.length campaigns)%nat.
Proof.
  intros Hle.
  assert (E : computeAll high campaigns =
              filter (fun m => (Metrics.ROAS m >=? high)%float) (computeAll low campaigns)).
  { rewrite !computeAll_filter.
    induction (map computeMetrics campaigns) as [|m l IH]; [reflexivity|].
    cbn [filter].
    destruct (Metrics.ROAS m >=? high)%float eqn:H.
    - rewrite (F64More.leb_trans _ _ _ Hle H). cbn [filter]. rewrite H, IH. reflexivity.
    - destruct (Metrics.ROAS m >=? low)%float; [cbn [filter]; rewrite H|]; exact IH. }
  split; [exact E|]. split.
  - rewrite E. apply filter_length_le.
  - rewrite computeAll_filter.
    pose proof (filter_length_le (fun m => (Metrics.ROAS m >=? low)%float)
                                 (map computeMetrics campaigns)) as H.
    rewrite length_map in H. exact H.
Qed.

Lemma raising_minROAS_filters_the_filtered_witness :
  computeAll 4.97 [googleSearchBrand; tieFirst; emailNewsletter] =
  filter (fun m => (Metrics.ROAS m >=? 4.97)%float)
         (computeAll 1 [googleSearchBrand; tieFirst; emailNewsletter]) /\
  map Metrics.Name (computeAll 4.97 [googleSearchBrand; tieFirst; emailNewsletter]) =
    ["Google Search - Brand"; "Email - Newsletter"].
Proof.
  split; [|vm_compute; reflexivity].
  apply (raising_minROAS_filters_the_filtered 1 4.97). reflexivity.
Defined.

Lemma Ordering_nil (A : Type) (less : A -> A -> bool) : sort.Ordering less [].
Proof. split; intros; contradiction. Qed.

Lemma computeAll_none (threshold : float) (campaigns : list Campaign) :
  (forall c, In c campaigns ->
             (Metrics.ROAS (computeMetrics c) >=? threshold)%float = false) ->
  computeAll threshold campaigns = [].
Proof.
  intros Hnone. rewrite computeAll_filter.
  induction campaigns as [|c cs IH]; [reflexivity|]. cbn [map filter].
  rewrite (Hnone c (or_introl eq_refl)). apply IH.
  intros c' H. apply Hnone. right. exact H.
Qed.

(** X8.  When campaigns are loaded and none has a ROAS at or above the
    threshold (a NaN threshold does that for every file), the run does
    not warn: it writes the heading with 0 campaigns, an empty table and
    the summary of no record, no selection, and exits with status 0. *)
Theorem nothing_passes_the_filter
  (ParseFloat : string -> option float)
  (sort_Slice : list Metrics -> (Metrics -> Metrics -> bool) -> list Metrics)
  (fsys : string -> fileContents) (fl : Flags) (campaigns : list Campaign) :
  sort.Sorts sort_Slice ->
  filePath fl <> "" ->
  loadCSV ParseFloat (fsys (filePath fl)) = Ok campaigns ->
  campaigns <> [] ->
  (forall c, In c campaigns ->
             (Metrics.ROAS (computeMetrics c) >=? minROAS fl)%float = false) ->
  main ParseFloat sort_Slice fsys fl =
  {| output := [Heading (filePath fl) 0 (strings.ToLower (sortBy fl)); Table [];
                Summary (totalMetrics [])];
     exitCode := 0 |}.
Proof.
  intros Hsorts Hfile Hload Hne Hnone. unfold main.
  destruct (String.eqb_spec (filePath fl) "") as [E|_]; [contradiction|].
  rewrite Hload.
  destruct campaigns as [|c cs]; [contradiction|]. cbn [List.length Nat.eqb].
  pose proof (computeAll_none _ _ Hnone) as Hall.
  unfold pipeline. rewrite Hall.
  destruct (Hsorts [] (less (sortBy fl)) (Ordering_nil _ _)) as [Hperm _].
  apply Permutation_nil in Hperm. rewrite Hperm. reflexivity.
Qed.

Lemma nothing_passes_the_filter_witness :
  main strconv.ParseDecimal sort.insertionSort_func (fun _ => organicAndPaid)
       (flagsWithMinROAS "CPA" nan) =
  {| output := [Heading "campaigns.csv" 0 "cpa"; Table []; Summary (totalMetrics [])];
     exitCode := 0 |}.
Proof.
  apply (nothing_passes_the_filter strconv.ParseDecimal sort.insertionSort_func
           (fun _ => organicAndPaid) (flagsWithMinROAS "CPA" nan)
           [organicSocial; paidSearch]).
  - apply insertionSort_func_Sorts.
  - discriminate.
  - vm_compute. reflexivity.
  - discriminate.
  - intros c Hc. apply F64More.leb_nan_l.
Defined.

(** X9.  When campaigns with finite non-negative measures are loaded, the
    run writes the heading, the table and the summary in that order; the
    table holds the computed records whose ROAS is at or above the
    threshold, each as many times as it is loaded and no other, the
    heading counts them and the summary is their total. *)
Theorem table_rows_are_the_survivors
  (ParseFloat : string -> option float)
  (sort_Slice : list Metrics -> (Metrics -> Metrics -> bool) -> list Metrics)
  (fsys : string -> fileContents) (fl : Flags) (campaigns : list Campaign) :
  sort.Sorts sort_Slice ->
  filePath fl <> "" ->
  loadCSV ParseFloat (fsys (filePath fl)) = Ok campaigns ->
  campaigns <> [] ->
  forallb validCampaign campaigns = true ->
  exists all total rest,
    output (main ParseFloat sort_Slice fsys fl) =
      Heading (filePath fl) (List.length all) (strings.ToLower (sortBy fl))
      :: Table all :: Summary total :: rest /\
    Permutation
      (filter (fun m => (Metrics.ROAS m >=? minROAS fl)%float) (map computeMetrics campaigns))
      all /\
    (List.length all <= List.length campaigns)%nat /\
    total = totalMetrics all /\
    forall m, In m all <->
              (exists c, In c campaigns /\ m = computeMetrics c /\
                         (Metrics.ROAS m >=? minROAS fl)%float = true).
Proof.
  intros Hsorts Hfile Hload Hne Hvalid.
  pose proof (pipeline_Permutation sort_Slice Hsorts fl campaigns Hvalid) as Hperm.
  rewrite computeAll_filter in Hperm.
  exists (pipeline sort_Slice fl campaigns), (totalMetrics (pipeline sort_Slice fl campaigns)),
         (bestWorst (pipeline sort_Slice fl campaigns)).
  split; [|split; [exact Hperm|split; [|split; [reflexivity|]]]].
  - unfold main.
    destruct (String.eqb_spec (filePath fl) "") as [E|_]; [contradiction|].
    rewrite Hload. destruct campaigns as [|c cs]; [contradiction|reflexivity].
  - rewrite <- (Permutation_length Hperm).
    pose proof (filter_length_le (fun m => (Metrics.ROAS m >=? minROAS fl)%float)
                                 (map computeMetrics campaigns)) as H.
    rewrite length_map in H. exact H.
  - intros m. split.
    + intros Hm. apply (Permutation_in m (Permutation_sym Hperm)) in Hm.
      apply filter_In in Hm as [Hm Hroas]. apply in_map_iff in Hm as (c & <- & Hc).
      exists c. auto.
    + intros (c & Hc & -> & Hroas). apply (Permutation_in _ Hperm).
      apply filter_In. split; [apply in_map, Hc|exact Hroas].
Qed.

(** With the threshold 6 only the campaign whose ROAS is 9 is in the table. *)
Lemma table_rows_are_the_survivors_witness :
  exists all total rest,
    output (main strconv.ParseDecimal sort.insertionSort_func (fun _ => organicAndPaid)
                 (flagsWithMinROAS "roas" 6)) =
      Heading "campaigns.csv" (List.length all) "roas" :: Table all :: Summary total :: rest /\
    map Metrics.Name all = ["Organic Social"].
Proof.
  destruct (table_rows_are_the_survivors strconv.ParseDecimal sort.insertionSort_func
              (fun _ => organicAndPaid) (flagsWithMinROAS "roas" 6)
              [organicSocial; paidSearch])
    as (all & total & rest & Hout & _).
  - apply insertionSort_func_Sorts.
  - discriminate.
  - vm_compute. reflexivity.
  - discriminate.
  - reflexivity.
  - exists all, total, rest. split; [exact Hout|].
    vm_compute in Hout. injection Hout as _ <- _ _. reflexivity.
Defined.

(** X10.  The record written as "Best ROAS" is the first of the sorted
    sequence.  When the sort key is ROAS (the default, and any key that
    is not recognised) it is a record of the table whose ROAS is at least
    that of every record of the table; under another key it need not be,
    as the third part of the witness shows. *)
Theorem bestROAS_is_the_maximum_when_sorted_by_roas
  (sort_Slice : list Metrics -> (Metrics -> Metrics -> bool) -> list Metrics)
  (fl : Flags) (campaigns : list Campaign) (name : string) (roas : float) :
  sort.Sorts sort_Slice ->
  forallb validCampaign campaigns = true ->
  keyOf (sortBy fl) = ByROAS ->
  In (BestROAS name roas) (report fl (pipeline sort_Slice fl campaigns)) ->
  (exists m, In m (pipeline sort_Slice fl campaigns) /\
             Metrics.Name m = name /\ Metrics.ROAS m = roas) /\
  forall m, In m (pipeline sort_Slice fl campaigns) ->
            (Metrics.ROAS m <=? roas)%float = true.
Proof.
  intros Hsorts Hvalid Hkey Hin.
  pose proof (pipeline_inOrder sort_Slice Hsorts fl campaigns Hvalid) as Hsorted.
  pose proof (pipeline_Permutation sort_Slice Hsorts fl campaigns Hvalid) as Hperm.
  pose proof (Permutation_Forall Hperm (computeAll_comparable (minROAS fl) campaigns Hvalid))
    as Hcmp.
  rewrite Hkey in Hsorted. unfold report in Hin.
  destruct (pipeline sort_Slice fl campaigns) as [|first [|second rest]];
    cbn [bestWorst app In] in Hin.
  - repeat (destruct Hin as [Hin|Hin]; [discriminate Hin|]). contradiction.
  - repeat (destruct Hin as [Hin|Hin]; [discriminate Hin|]). contradiction.
  - assert (E : BestROAS (Metrics.Name first) (Metrics.ROAS first) = BestROAS name roas).
    { repeat (destruct Hin as [Hin|Hin]; try discriminate Hin; try exact Hin).
      contradiction. }
    injection E as <- <-. split; [exists first; simpl; auto|].
    intros m [<-|Hm].
    + apply F64Facts.leb_refl. destruct (Forall_inv Hcmp) as (_ & _ & _ & H & _). exact H.
    + apply StronglySorted_inv in Hsorted as [_ Hfirst].
      rewrite Forall_forall in Hfirst. exact (Hfirst m Hm).
Qed.

Lemma bestROAS_is_the_maximum_when_sorted_by_roas_witness :
  forallb (fun m => (Metrics.ROAS m <=? 25.5)%float)
          (pipeline sort.insertionSort_func (flagsSortedBy "ROAS")
                    [googleSearchBrand; emailNewsletter; tieFirst]) = true /\
  bestWorst (pipeline sort.insertionSort_func (flagsSortedBy "cpa")
                      [emailNewsletter; tieFirst; googleSearchBrand]) =
    [BestROAS "Email - Newsletter" 25.5; LowestCPA "Email - Newsletter" 0.47] /\
  bestWorst (pipeline sort.insertionSort_func (flagsSortedBy "spend")
                      [emailNewsletter; tieFirst; googleSearchBrand]) =
    [BestROAS "Google Search - Brand" 4.97; LowestCPA "Email - Newsletter" 0.47].
Proof.
  split; [|split; vm_compute; reflexivity].
  apply forallb_forall. intros m Hm.
  apply (bestROAS_is_the_maximum_when_sorted_by_roas sort.insertionSort_func
           (flagsSortedBy "ROAS") [googleSearchBrand; emailNewsletter; tieFirst]
           "Email - Newsletter" 25.5 (insertionSort_func_Sorts Metrics) eq_refl eq_refl).
  - vm_compute. tauto.
  - exact Hm.
Defined.

(** Started from the sample record, the scan ends on the newsletter,
    whose CPA is at most that of the record in between. *)
Lemma lowestCPA_least_when_first_converts_witness :
  lowestCPA (computeMetrics googleSearchBrand)
            (map computeMetrics [tieFirst; emailNewsletter]) = computeMetrics emailNewsletter /\
  (Metrics.CPA (lowestCPA (computeMetrics googleSearchBrand)
                          (map computeMetrics [tieFirst; emailNewsletter]))
   <=? Metrics.CPA (computeMetrics tieFirst))%float = true.
Proof.
  split; [vm_compute; reflexivity|].
  destruct (lowestCPA_least_when_first_converts
              (map computeMetrics [tieFirst; emailNewsletter])
              (computeMetrics googleSearchBrand)) as (_ & _ & Hleast).
  - cbn [map].
    repeat (apply Forall_cons; [apply computeMetrics_comparable; reflexivity|]).
    apply Forall_nil.
  - reflexivity.
  - apply Hleast; [simpl; tauto|reflexivity].
Defined.

(* ================================================================== *)
(** ** Display and totals *)

(** X12.  [colorROAS] wraps the formatted value in exactly one of three
    colours and ends it with the reset code: green and bold when the
    value is at least 4, yellow when it is at least 2 and below 4, red
    when it is below 2, and red also when it is NaN. *)
Theorem colorROAS_bands (Sprintf_2fx : float -> string) (v : float) :
  (colorROAS Sprintf_2fx v = ((green ++ bold) ++ Sprintf_2fx v) ++ reset /\
   (v >=? 4)%float = true) \/
  (colorROAS Sprintf_2fx v = (yellow ++ Sprintf_2fx v) ++ reset /\
   (v >=? 2)%float = true /\ (v <? 4)%float = true) \/
  (colorROAS Sprintf_2fx v = (red ++ Sprintf_2fx v) ++ reset /\
   ((v <? 2)%float = true \/ (v =? v)%float = false)).
Proof.
  unfold colorROAS. cbv zeta.
  destruct (v >=? 4)%float eqn:H4; [left; split; reflexivity|].
  destruct (v >=? 2)%float eqn:H2.
  - right. left. split; [reflexivity|]. split; [reflexivity|].
    apply F64More.leb_false_ltb in H4 as [H|[H|H]]; [exact H| |discriminate H].
    apply F64More.leb_true_not_nan in H2 as [_ H2]. rewrite H2 in H. discriminate H.
  - right. right. split; [reflexivity|].
    apply F64More.leb_false_ltb in H2 as [H|[H|H]]; [left; exact H|right; exact H|discriminate H].
Qed.

Lemma fold_add_ge0 (measure : Metrics -> float) (all : list Metrics) :
  Forall (fun m => (measure m >=? 0)%float = true) all ->
  forall acc : float, (acc >=? 0)%float = true ->
  (fold_left (fun acc m => (acc + measure m)%float) all acc >=? 0)%float = true.
Proof.
  induction all as [|m all IH]; intros Hall acc Hacc; [exact Hacc|].
  cbn [fold_left]. apply IH; [exact (Forall_inv_tail Hall)|].
  apply F64More.add_ge0; [exact Hacc|exact (Forall_inv Hall)].
Qed.

(** X13.  When no carried measure of any record is negative or NaN, the
    five sums of the total row are [>= 0], so none is NaN.  When the five
    sums are moreover finite, each of the six ratios of the total row is
    [>= 0], so none is NaN, and the ROAS of the total row is 0 when the
    spend sums to 0. *)
Theorem totals_are_not_negative (all : list Metrics) :
  Forall measuresNonNeg all ->
  measuresNonNeg (totalMetrics all) /\
  (validCampaign
     {| Campaign.Name := "TOTAL";
        Campaign.Impressions := sumOf Metrics.Impressions all;
        Campaign.Clicks := sumOf Metrics.Clicks all;
        Campaign.Conversions := sumOf Metrics.Conversions all;
        Campaign.Spend := sumOf Metrics.Spend all;
        Campaign.Revenue := sumOf Metrics.Revenue all |} = true ->
   ratiosNonNeg (totalMetrics all) /\
   ((Metrics.Spend (totalMetrics all) =? 0)%float = true ->
    Metrics.ROAS (totalMetrics all) = 0%float)).
Proof.
  intros Hall.
  assert (E : totalMetrics all = computeMetrics
     {| Campaign.Name := "TOTAL";
        Campaign.Impressions := sumOf Metrics.Impressions all;
        Campaign.Clicks := sumOf Metrics.Clicks all;
        Campaign.Conversions := sumOf Metrics.Conversions all;
        Campaign.Spend := sumOf Metrics.Spend all;
        Campaign.Revenue := sumOf Metrics.Revenue all |}).
  { unfold totalMetrics. rewrite fold_addMeasures. reflexivity. }
  rewrite E. split.
  - unfold measuresNonNeg, computeMetrics, sumOf; cbn.
    repeat split; apply fold_add_ge0; try reflexivity;
      (eapply Forall_impl; [|exact Hall]); intros m (H1 & H2 & H3 & H4 & H5); assumption.
  - intros Hvalid. split.
    + apply validCampaign_measures in Hvalid as (Hi & Hk & Hv & Hs & Hr).
      unfold ratiosNonNeg, computeMetrics; cbn.
      repeat split;
        apply F64Facts.round2_ge0; try apply F64Facts.mul_100_ge0;
        apply F64Facts.safe_ge0; auto using nonNegFinite_ge0.
    + cbn. intros Hzero. rewrite (safe_zero _ _ Hzero). reflexivity.
Qed.

(** The totals of two rows of the sample: the sums are finite, and the
    six blended ratios are not negative. *)
Lemma totals_are_not_negative_witness :
  measuresNonNeg (totalMetrics (map computeMetrics [googleSearchBrand; emailNewsletter])) /\
  ratiosNonNeg (totalMetrics (map computeMetrics [googleSearchBrand; emailNewsletter])) /\
  Metrics.Impressions (totalMetrics (map computeMetrics [googleSearchBrand; emailNewsletter]))
    = 120000%float.
Proof.
  destruct (totals_are_not_negative (map computeMetrics [googleSearchBrand; emailNewsletter]))
    as [Hsums Hratios].
  - repeat constructor.
  - split; [exact Hsums|]. split; [|vm_compute; reflexivity].
    apply Hratios. reflexivity.
Defined.

(** Two campaigns whose spend and revenue are finite and whose sums are not. *)
Example overflowing_totals_give_NaN :
  validCampaign hugeCampaign = true /\
  Metrics.ROAS (computeMetrics hugeCampaign) = 1%float /\
  (Metrics.Spend (totalMetrics (map computeMetrics [hugeCampaign; hugeCampaign]))
   =? infinity)%float = true /\
  Metrics.ROAS (totalMetrics (map computeMetrics [hugeCampaign; hugeCampaign])) = nan.
Proof. repeat split; vm_compute; reflexivity. Qed.
